(** * The bot fleet of [backend/bot_manager.py]

    A shallow embedding of [get_yandex_gpt_response], [BotThread] and
    [BotManager], with the [User] table of [backend/models.py].

    - The registry [self.bots] and the comprehension [user_tokens] are finite
      maps from user ids to values ([gmap Z _]).  Python iterates a dict in
      insertion order; the embedding iterates in the enumeration order of the
      map, and no statement below depends on the order.
    - Calls that leave the process (the HTTP request, the Telegram reply, the
      database session, thread start and join, logging) are recorded as
      [event]s in a trace, in the order the code performs them.
    - What the outside world answers is a parameter: the [network] answers
      the HTTP request, [ptb] says how the Telegram library behaves inside a
      worker thread, [world] says whether a worker thread ever exits.
    - Code is written in a small state monad whose results are a normal
      return, a raised exception, or a call that never returns. *)

From stdpp Require Import gmap strings list.

Open Scope Z_scope.

(** ** [backend/models.py] *)

Module User.
Record t := mk {
  id : Z;
  username : string;
  password_hash : string;
  is_active : bool;
  is_admin : bool;
  tg_bot_token : option string;
  vk_token : option string;
  system_prompt : option string
}.
End User.

(** The [users] table: the rows in the order a query returns them. *)
Definition database := list User.t.

(** [db.query(User).filter(User.id == user_id).first()] *)
Definition query_first (db : database) (user_id : Z) : option User.t :=
  head (filter (λ u, User.id u = user_id) db).

(** [db.query(User).filter(User.tg_bot_token != None,
                           User.tg_bot_token != '').all()] *)
Definition has_token (u : User.t) : Prop :=
  User.tg_bot_token u ≠ None ∧ User.tg_bot_token u ≠ Some "".

#[global] Instance has_token_dec u : Decision (has_token u).
Proof. unfold has_token. apply _. Defined.

Definition query_with_tokens (db : database) : list User.t :=
  filter has_token db.

(** ** Events, exceptions and the monad *)

Inductive exn := Exception (cls : string).

Inductive log_record :=
| gpt_error (e : exn)                 (* "Ошибка при обращении к Yandex GPT" *)
| bot_error (user_id : Z) (e : exn)   (* "Ошибка в боте {user_id}" *)
| stop_error (user_id : Z) (e : exn)  (* "Ошибка при остановке бота" *)
| stopping_bot (user_id : Z)          (* "Останавливаю бота для user_id=" *)
| starting_bot (user_id : Z).         (* "Запускаю бота для user_id=" *)

(** The calls a trace records.  [thread_stop] marks a call of
    [BotThread.stop] on the worker with that user id and token;
    [cycle_begins] and [cycle_ends] mark the clock around [update_bots]. *)
Inductive event :=
| SessionLocal
| db_close
| requests_post (system_prompt prompt : string)
| reply_text (text : string)
| logger_error (r : log_record)
| logger_info (r : log_record)
| application_stop (user_id : Z)
| application_shutdown (user_id : Z)
| loop_close (user_id : Z)
| thread_stop (user_id : Z) (token : string)
| thread_join (user_id : Z)
| thread_start (user_id : Z) (token : string)
| cycle_begins (now : Z)
| cycle_ends (now : Z)
| time_sleep (seconds : Z).

#[global] Instance exn_eq_dec : EqDecision exn.
Proof. solve_decision. Defined.
#[global] Instance log_record_eq_dec : EqDecision log_record.
Proof. solve_decision. Defined.
#[global] Instance event_eq_dec : EqDecision event.
Proof. solve_decision. Defined.

(** The result of a call: it returns, it raises, or it never comes back. *)
Inductive res (A : Type) :=
| Ret (a : A)
| Exc (e : exn)
| Hang.
Arguments Ret {A} a.
Arguments Exc {A} e.
Arguments Hang {A}.

Section Monad.
Context {S : Type}.

Definition M (A : Type) : Type := S → res A * S.

Definition ret {A} (a : A) : M A := λ s, (Ret a, s).

Definition raise {A} (e : exn) : M A := λ s, (Exc e, s).

Definition hang {A} : M A := λ s, (Hang, s).

Definition bind {A B} (c : M A) (k : A → M B) : M B := λ s,
  match c s with
  | (Ret a, s') => k a s'
  | (Exc e, s') => (Exc e, s')
  | (Hang, s') => (Hang, s')
  end.

(** [try: body / except Exception as e: handler e] *)
Definition try_except {A} (body : M A) (handler : exn → M A) : M A := λ s,
  match body s with
  | (Exc e, s') => handler e s'
  | r => r
  end.

(** [try: body / finally: cleanup] *)
Definition try_finally {A} (body : M A) (cleanup : M unit) : M A := λ s,
  match body s with
  | (Ret a, s') => bind cleanup (λ _, ret a) s'
  | (Exc e, s') => bind cleanup (λ _, raise e) s'
  | (Hang, s') => (Hang, s')
  end.

Definition modify (f : S → S) : M unit := λ s, (Ret tt, f s).

Definition get : M S := λ s, (Ret s, s).
End Monad.
Arguments M : clear implicits.

Declare Scope py_scope.
Delimit Scope py_scope with py.
Notation "x <- c ;; k" := (bind c (λ x, k))
  (at level 100, c at next level, right associativity) : py_scope.
Notation "c ;;; k" := (bind c (λ _, k))
  (at level 100, right associativity) : py_scope.
Open Scope py_scope.

(** ** The completion collaborator *)

Definition degraded_answer : string :=
  "Извините, произошла ошибка при генерации ответа.".

Definition not_configured : string :=
  "Извините, системный промпт не настроен.".

(** What [requests.post] gives back.  [json_text] is the value of
    [response.json()["result"]["alternatives"][0]["message"]["text"]], and
    [None] when [json()] or one of the subscripts raises. *)
Record Response := {
  status_code : Z;
  json_text : option string
}.

(** The completion endpoint: for the two message texts of the request body,
    a response, or the exception [requests.post] raises. *)
Definition network := string → string → exn + Response.

(** A worker's code only touches the trace. *)
Definition emit (e : event) : M (list event) unit := modify (λ tr, tr ++ [e]).

Definition post (net : network) (system_prompt prompt : string)
  : M (list event) Response :=
  emit (requests_post system_prompt prompt) ;;;
  match net system_prompt prompt with
  | inr response => ret response
  | inl e => raise e
  end.

(** [response.raise_for_status()]: an [HTTPError] for a 4xx or 5xx status. *)
Definition raise_for_status (response : Response) : M (list event) unit :=
  if bool_decide (400 ≤ status_code response < 600)
  then raise (Exception "HTTPError")
  else ret tt.

Definition result_text (response : Response) : M (list event) string :=
  match json_text response with
  | Some text => ret text
  | None => raise (Exception "KeyError")
  end.

(** [get_yandex_gpt_response]: the three steps of the [try], and the
    [except Exception] that turns whatever they raise into the fixed
    answer. *)
Definition get_yandex_gpt_response (net : network) (prompt system_prompt : string)
  : M (list event) string :=
  try_except
    (response <- post net system_prompt prompt ;;
     raise_for_status response ;;;
     result_text response)
    (λ e,
     emit (logger_error (gpt_error e)) ;;;
     ret degraded_answer).

(** ** [BotThread] *)

Inductive loop_state := loop_idle | loop_running | loop_closed.

Inductive Application := application_of (token : string).

Record BotThread := {
  token : string;
  user_id : Z;
  application : option Application;
  running : bool;
  loop : option loop_state
}.

#[global] Instance loop_state_eq_dec : EqDecision loop_state.
Proof. solve_decision. Defined.
#[global] Instance Application_eq_dec : EqDecision Application.
Proof. solve_decision. Defined.
#[global] Instance BotThread_eq_dec : EqDecision BotThread.
Proof. solve_decision. Defined.

(** [BotThread.__init__] *)
Definition BotThread_init (token : string) (user_id : Z) : BotThread :=
  {| token := token; user_id := user_id; application := None;
     running := true; loop := None |}.

Record Message := { text : option string }.
Record Update := { message : option Message }.

(** Python's [not update.message or not update.message.text]: a missing
    message, a missing text and the empty text are all falsy. *)
Definition message_text (update : Update) : option string :=
  match message update with
  | None => None
  | Some m =>
      match text m with
      | None => None
      | Some "" => None
      | Some t => Some t
      end
  end.

(** [BotThread.handle_message]: the prompt is read from the table for
    every message. *)
Definition handle_message (net : network) (db : database) (self : BotThread)
    (update : Update) : M (list event) unit :=
  match message_text update with
  | None => ret tt
  | Some user_message =>
      emit SessionLocal ;;;
      try_finally
        (match query_first db (user_id self) with
         | Some user =>
             match User.system_prompt user with
             | Some system_prompt =>
                 response <- get_yandex_gpt_response net user_message system_prompt ;;
                 emit (reply_text response)
             | None => emit (reply_text not_configured)
             end
         | None => emit (reply_text not_configured)
         end)
        (emit db_close)
  end.

(** What a trace shows: the completion calls and the replies, in order. *)
Definition completion_calls (tr : list event) : list (string * string) :=
  omap (λ e, match e with
             | requests_post system_prompt prompt => Some (prompt, system_prompt)
             | _ => None
             end) tr.

Definition replies (tr : list event) : list string :=
  omap (λ e, match e with reply_text t => Some t | _ => None end) tr.

(** The tenant's stored system prompt, as [handle_message] reads it. *)
Definition stored_prompt (db : database) (user_id : Z) : option string :=
  u ← query_first db user_id; User.system_prompt u.

(** *** [BotThread.run] and [BotThread.stop]

    A method of a worker runs on the worker object and the trace. *)

Definition thread_state : Type := BotThread * list event.

Definition emit_t (e : event) : M thread_state unit :=
  modify (λ s, (s.1, s.2 ++ [e])).

Definition set_loop (l : option loop_state) : M thread_state unit :=
  modify (λ s, ({| token := token s.1; user_id := user_id s.1;
                   application := application s.1; running := running s.1;
                   loop := l |}, s.2)).

Definition set_application (a : option Application) : M thread_state unit :=
  modify (λ s, ({| token := token s.1; user_id := user_id s.1;
                   application := a; running := running s.1;
                   loop := loop s.1 |}, s.2)).

Definition set_running (r : bool) : M thread_state unit :=
  modify (λ s, ({| token := token s.1; user_id := user_id s.1;
                   application := application s.1; running := r;
                   loop := loop s.1 |}, s.2)).

Definition may_raise (o : option exn) : M thread_state unit :=
  match o with
  | Some e => raise e
  | None => ret tt
  end.

(** [loop.run_until_complete(c)] on the thread's own loop: the loop runs
    while [c] does, and is idle again when [c] returns or raises. *)
Definition run_until_complete (c : M thread_state unit) : M thread_state unit :=
  set_loop (Some loop_running) ;;;
  try_finally c (set_loop (Some loop_idle)).

Inductive polling :=
| polls_forever
| polling_returns
| polling_raises (e : exn).

(** How the Telegram library behaves in one worker thread: what each call
    raises, if anything, and how [run_polling] ends. *)
Record ptb := {
  build_raises : option exn;
  initialize_raises : option exn;
  start_raises : option exn;
  run_polling : polling
}.

Definition application_run_polling (lib : ptb) : M thread_state unit :=
  match run_polling lib with
  | polls_forever => hang
  | polling_returns => ret tt
  | polling_raises e => raise e
  end.

(** [BotThread.run].  [add_handler] only registers [handle_message] with the
    library and has no effect of its own here.  The thread spends its life
    in [run_polling], with its loop running; whatever is raised inside the
    [try] is logged, and the loop is closed on the way out. *)
Definition BotThread_run (lib : ptb) : M thread_state unit :=
  set_loop (Some loop_idle) ;;;
  try_finally
    (try_except
       (may_raise (build_raises lib) ;;;
        s <- get ;;
        set_application (Some (application_of (token s.1))) ;;;
        run_until_complete (may_raise (initialize_raises lib)) ;;;
        run_until_complete (may_raise (start_raises lib)) ;;;
        run_until_complete (application_run_polling lib))
       (λ e,
        s <- get ;;
        emit_t (logger_error (bot_error (user_id s.1) e))))
    (s <- get ;;
     set_loop (Some loop_closed) ;;;
     emit_t (loop_close (user_id s.1))).

(** How [loop.run_until_complete(stop_application())] goes when the
    supervisor's thread calls it on a worker's loop: the loop refuses to run
    the coroutine, or [application.stop()] raises, or
    [application.shutdown()] raises, or both complete. *)
Inductive shutdown :=
| loop_refuses (e : exn)
| stop_fails (e : exn)
| shutdown_fails (e : exn)
| shuts_down.

(** What the outside does to a worker that the supervisor stops:
    [stop_application user_id] is how the shutdown of that worker goes, and
    [thread_exits user_id] says whether the worker's thread ever finishes. *)
Record world := {
  stop_application : Z → shutdown;
  thread_exits : Z → bool
}.

(** The coroutine [stop_application] of [BotThread.stop], run on the
    worker's loop. *)
Definition run_stop_application (w : world) (user_id : Z) : M thread_state unit :=
  match stop_application w user_id with
  | loop_refuses e => raise e
  | stop_fails e =>
      emit_t (application_stop user_id) ;;;
      raise e
  | shutdown_fails e =>
      emit_t (application_stop user_id) ;;;
      emit_t (application_shutdown user_id) ;;;
      raise e
  | shuts_down =>
      emit_t (application_stop user_id) ;;;
      emit_t (application_shutdown user_id)
  end.

Definition is_running (l : loop_state) : bool :=
  bool_decide (l = loop_running).

(** [BotThread.stop], called from the supervisor's thread. *)
Definition BotThread_stop (w : world) : M thread_state unit :=
  s <- get ;;
  emit_t (thread_stop (user_id s.1) (token s.1)) ;;;
  set_running false ;;;
  match application s.1, loop s.1 with
  | Some _, Some l =>
      try_except
        (if is_running l then run_stop_application w (user_id s.1)
         else ret tt)
        (λ e, emit_t (logger_error (stop_error (user_id s.1) e)))
  | _, _ => ret tt
  end.

(** A thread whose [run] has closed its loop has finished; any other thread
    finishes when the world says so. *)
Definition thread_terminates (w : world) (bot : BotThread) : bool :=
  bool_decide (loop bot = Some loop_closed) || thread_exits w (user_id bot).

(** [Thread.join()] without a timeout: returns once the thread has finished,
    and not before. *)
Definition BotThread_join (w : world) : M thread_state unit :=
  s <- get ;;
  emit_t (thread_join (user_id s.1)) ;;;
  if thread_terminates w s.1 then ret tt else hang.

(** ** [BotManager] *)

Record BotManager := {
  bots : gmap Z BotThread;
  trace : list event;
  now : Z
}.

(** [BotManager.__init__], with an empty trace and the clock at [t]. *)
Definition BotManager_init (t : Z) : BotManager :=
  {| bots := ∅; trace := []; now := t |}.

Definition emit_m (e : event) : M BotManager unit :=
  modify (λ s, {| bots := bots s; trace := trace s ++ [e]; now := now s |}).

Definition KeyError : exn := Exception "KeyError".

(** [self.bots[user_id].method()]: the worker object is the one stored in
    the registry, so what the method does to it is seen through the
    registry. *)
Definition on_bot {A} (user_id : Z) (method : M thread_state A) : M BotManager A :=
  λ s,
    match bots s !! user_id with
    | None => (Exc KeyError, s)
    | Some bot =>
        let '(r, (bot', tr')) := method (bot, trace s) in
        (r, {| bots := <[user_id := bot']> (bots s); trace := tr'; now := now s |})
    end.

(** [self.bots[user_id].token] *)
Definition bot_token (user_id : Z) : M BotManager string :=
  on_bot user_id (s <- get ;; ret (token s.1)).

(** [del self.bots[user_id]] *)
Definition bots_delitem (user_id : Z) : M BotManager unit :=
  λ s,
    match bots s !! user_id with
    | None => (Exc KeyError, s)
    | Some _ =>
        (Ret tt, {| bots := delete user_id (bots s); trace := trace s; now := now s |})
    end.

(** [self.bots[user_id] = bot_thread] *)
Definition bots_setitem (user_id : Z) (bot_thread : BotThread) : M BotManager unit :=
  modify (λ s, {| bots := <[user_id := bot_thread]> (bots s);
                  trace := trace s; now := now s |}).

(** [{user.id: user.tg_bot_token for user in users}]: a later row with the
    same id overwrites an earlier one. *)
Definition user_tokens_of (users : list User.t) : gmap Z string :=
  foldl (λ d user,
           match User.tg_bot_token user with
           | Some t => <[User.id user := t]> d
           | None => d
           end) ∅ users.

(** The desired state a cycle reads. *)
Definition desired (db : database) : gmap Z string :=
  user_tokens_of (query_with_tokens db).

(** The first loop of [update_bots], over the snapshot [list(self.bots.keys())]. *)
Fixpoint stop_bots (w : world) (user_tokens : gmap Z string) (keys : list Z)
  : M BotManager unit :=
  match keys with
  | [] => ret tt
  | user_id :: keys =>
      changed <- match user_tokens !! user_id with
                 | None => ret true
                 | Some t =>
                     t' <- bot_token user_id ;;
                     ret (bool_decide (t' ≠ t))
                 end ;;
      (if changed : bool then
         emit_m (logger_info (stopping_bot user_id)) ;;;
         on_bot user_id (BotThread_stop w) ;;;
         on_bot user_id (BotThread_join w) ;;;
         bots_delitem user_id
       else ret tt) ;;;
      stop_bots w user_tokens keys
  end.

(** The second loop of [update_bots], over [user_tokens.items()]. *)
Fixpoint start_bots (items : list (Z * string)) : M BotManager unit :=
  match items with
  | [] => ret tt
  | (user_id, token) :: items =>
      s <- get ;;
      (if bool_decide (bots s !! user_id = None) then
         emit_m (logger_info (starting_bot user_id)) ;;;
         emit_m (thread_start user_id token) ;;;
         bots_setitem user_id (BotThread_init token user_id)
       else ret tt) ;;;
      start_bots items
  end.

(** [BotManager.update_bots]: one reconciliation cycle. *)
Definition update_bots (w : world) (db : database) : M BotManager unit :=
  emit_m SessionLocal ;;;
  try_finally
    (let users := query_with_tokens db in
     let user_tokens := user_tokens_of users in
     s <- get ;;
     stop_bots w user_tokens (map_to_list (bots s)).*1 ;;;
     start_bots (map_to_list user_tokens))
    (emit_m db_close).

(** What one cycle meets: the table, the world, and how long the cycle
    takes. *)
Record cycle := {
  cycle_db : database;
  cycle_world : world;
  cycle_duration : nat
}.

Definition advance (d : Z) : M BotManager unit :=
  modify (λ s, {| bots := bots s; trace := trace s; now := now s + d |}).

(** [time.sleep(seconds)] *)
Definition sleep (seconds : Z) : M BotManager unit :=
  emit_m (time_sleep seconds) ;;;
  advance seconds.

(** The first [n] rounds of the [while True] of [BotManager.run], the
    [i]-th round meeting [env i].  [cycle_begins] and [cycle_ends] are not
    calls of the code: they put the clock into the trace when [update_bots]
    is entered and left. *)
Fixpoint BotManager_run (n : nat) (env : nat → cycle) (i : nat) : M BotManager unit :=
  match n with
  | O => ret tt
  | S n =>
      s <- get ;;
      emit_m (cycle_begins (now s)) ;;;
      update_bots (cycle_world (env i)) (cycle_db (env i)) ;;;
      advance (Z.of_nat (cycle_duration (env i))) ;;;
      s <- get ;;
      emit_m (cycle_ends (now s)) ;;;
      sleep 10 ;;;
      BotManager_run n env (S i)
  end.

(** What a trace shows of a cycle. *)
Definition stopped (tr : list event) : list Z :=
  omap (λ e, match e with thread_stop u _ => Some u | _ => None end) tr.

Definition started (tr : list event) : list (Z * string) :=
  omap (λ e, match e with thread_start u t => Some (u, t) | _ => None end) tr.

Definition cycle_starts (tr : list event) : list Z :=
  omap (λ e, match e with cycle_begins t => Some t | _ => None end) tr.

Definition cycle_stops (tr : list event) : list Z :=
  omap (λ e, match e with cycle_ends t => Some t | _ => None end) tr.

(** ** The vocabulary of the properties *)

(** The completion call fails: [requests.post] raises, or the status is an
    error status, or the body has no text at the expected place. *)
Definition completion_fails (net : network) (prompt system_prompt : string) : Prop :=
  match net system_prompt prompt with
  | inl _ => True
  | inr response =>
      400 ≤ status_code response < 600 ∨ json_text response = None
  end.

(** The text [get_yandex_gpt_response] returns, read off a run of it. *)
Definition answer (net : network) (prompt system_prompt : string) : res string :=
  (get_yandex_gpt_response net prompt system_prompt []).1.

(** Unfold the monad's operations in the goal. *)
Ltac run_m :=
  cbv [bind try_finally try_except emit modify ret raise hang get]; simpl.

(** The worker object after [stop]: only [running] has changed. *)
Definition halted (bot : BotThread) : BotThread :=
  {| token := token bot; user_id := user_id bot;
     application := application bot; running := false; loop := loop bot |}.

(** What [stop] does after it has cleared [running]. *)
Definition shutdown_events (w : world) (bot : BotThread) : list event :=
  match application bot, loop bot with
  | Some _, Some l =>
      if is_running l then
        match stop_application w (user_id bot) with
        | loop_refuses e => [logger_error (stop_error (user_id bot) e)]
        | stop_fails e =>
            [application_stop (user_id bot);
             logger_error (stop_error (user_id bot) e)]
        | shutdown_fails e =>
            [application_stop (user_id bot);
             application_shutdown (user_id bot);
             logger_error (stop_error (user_id bot) e)]
        | shuts_down =>
            [application_stop (user_id bot);
             application_shutdown (user_id bot)]
        end
      else []
  | _, _ => []
  end.

(** Everything the first loop does for one worker it stops, up to and
    including the call of [join]. *)
Definition stop_events (w : world) (k : Z) (bot : BotThread) : list event :=
  [logger_info (stopping_bot k); thread_stop (user_id bot) (token bot)]
  ++ shutdown_events w bot ++ [thread_join (user_id bot)].

(** The first loop stops the worker stored under [k]: its tenant is gone
    from the desired state, or is there with another token. *)
Definition stale (user_tokens : gmap Z string) (k : Z) (bot : BotThread) : Prop :=
  user_tokens !! k ≠ Some (token bot).

Ltac run_t :=
  cbv [BotThread_stop BotThread_join run_stop_application may_raise emit_t
       set_running set_loop
       set_application bind try_finally try_except modify ret raise hang get];
  simpl.

#[global] Instance stale_dec user_tokens k bot : Decision (stale user_tokens k bot).
Proof. unfold stale. apply _. Defined.

(** The registry after the first loop has returned: the stale workers among
    [keys] are gone, every other entry is as it was. *)
Definition without_stale (user_tokens : gmap Z string) (keys : list Z)
    (registry : gmap Z BotThread) (k : Z) : option BotThread :=
  bot ← registry !! k;
  if decide (k ∈ keys ∧ stale user_tokens k bot) then None else Some bot.

(** The registry after the second loop: a worker for every desired tenant
    the registry did not hold, every held entry as it was. *)
Definition with_started (user_tokens : gmap Z string)
    (registry : gmap Z BotThread) (k : Z) : option BotThread :=
  match registry !! k with
  | Some bot => Some bot
  | None => (λ t, BotThread_init t k) <$> user_tokens !! k
  end.

Definition logged (e : event) (s : BotManager) : BotManager :=
  {| bots := bots s; trace := trace s ++ [e]; now := now s |}.

(** The registry between the two loops of a cycle that returns: the stale
    workers are gone. *)
Definition kept (user_tokens : gmap Z string) (registry : gmap Z BotThread)
    (k : Z) : option BotThread :=
  bot ← registry !! k;
  if decide (stale user_tokens k bot) then None else Some bot.

(** What a returned cycle has done, by its two loops: the state [mid]
    between them, the events of the first loop and those of the second. *)
Definition cycle_returned (w : world) (db : database) (s s' mid : BotManager)
    (tr_stop tr_start : list event) : Prop :=
  stop_bots w (desired db) (map_to_list (bots s)).*1 (logged SessionLocal s)
  = (Ret tt, mid)
  ∧ (∃ s'', start_bots (map_to_list (desired db)) mid = (Ret tt, s'')
            ∧ s' = logged db_close s'')
  ∧ trace mid = trace s ++ SessionLocal :: tr_stop
  ∧ trace s' = trace mid ++ tr_start ++ [db_close]
  ∧ started tr_stop = []
  ∧ stopped tr_start = []
  ∧ (∀ k bot, bots s !! k = Some bot → stale (desired db) k bot →
       thread_terminates w bot = true
       ∧ thread_stop (user_id bot) (token bot) ∈ tr_stop)
  ∧ (∀ u t, thread_stop u t ∈ tr_stop →
       ∃ k bot, bots s !! k = Some bot ∧ stale (desired db) k bot
                ∧ u = user_id bot ∧ t = token bot)
  ∧ (∀ k, bots mid !! k = kept (desired db) (bots s) k)
  ∧ (∀ k t, thread_start k t ∈ tr_start ↔
       bots mid !! k = None ∧ desired db !! k = Some t)
  ∧ (∀ k, bots s' !! k = with_started (desired db) (bots mid) k).

(** What a cycle that never returns has done: it is inside the [join] of a
    stale worker whose thread does not finish, and that worker is still in
    the registry. *)
Definition cycle_hangs (w : world) (db : database) (s s' : BotManager) : Prop :=
  ∃ k bot tr,
    bots s !! k = Some bot
    ∧ stale (desired db) k bot
    ∧ thread_terminates w bot = false
    ∧ bots s' !! k = Some (halted bot)
    ∧ trace s' = trace s ++ SessionLocal :: tr ++ [thread_join (user_id bot)].

(** The registry after a returned cycle, entry by entry. *)
Definition reconciled (user_tokens : gmap Z string)
    (registry : gmap Z BotThread) (k : Z) : option BotThread :=
  match user_tokens !! k with
  | None => None
  | Some t =>
      match registry !! k with
      | Some bot =>
          if decide (token bot = t) then Some bot
          else Some (BotThread_init t k)
      | None => Some (BotThread_init t k)
      end
  end.




(** A trace without clock marks. *)
Definition unmarked (tr : list event) : Prop :=
  cycle_starts tr = [] ∧ cycle_stops tr = [].

(** The worker thread of [user_id] executes [run] on its object, the one the
    registry holds. *)
Definition thread_runs (lib : ptb) (user_id : Z) : M BotManager unit :=
  on_bot user_id (BotThread_run lib).

(** The first exception raised inside the [try] of [run], if any. *)
Definition unexpected_error (lib : ptb) : option exn :=
  match build_raises lib with
  | Some e => Some e
  | None =>
      match initialize_raises lib with
      | Some e => Some e
      | None =>
          match start_raises lib with
          | Some e => Some e
          | None =>
              match run_polling lib with
              | polling_raises e => Some e
              | _ => None
              end
          end
      end
  end.

(** The events a state has gained over an earlier one. *)
Definition events_since (s s' : BotManager) : list event :=
  drop (length (trace s)) (trace s').

Module Scenario.
Definition user (id : Z) (tg_bot_token system_prompt : option string) : User.t :=
  User.mk id "tenant" "hash" true false tg_bot_token None system_prompt.

(** What [run_until_complete] raises on a loop that another thread is
    running. *)
Definition loop_is_busy : exn := Exception "RuntimeError".

Definition threads_finish : world :=
  {| stop_application := λ _, loop_refuses loop_is_busy; thread_exits := λ _, true |}.

Definition threads_poll_on : world :=
  {| stop_application := λ _, loop_refuses loop_is_busy; thread_exits := λ _, false |}.

Definition polls : ptb :=
  {| build_raises := None; initialize_raises := None; start_raises := None;
     run_polling := polls_forever |}.

Definition disconnects : ptb :=
  {| build_raises := None; initialize_raises := None; start_raises := None;
     run_polling := polling_raises (Exception "NetworkError") |}.

Definition db1 : database := [user 1 (Some "tok1") (Some "be brief")].

Definition db2 : database :=
  [user 1 (Some "tok2") (Some "be brief"); user 2 (Some "tokA") None;
   user 3 None None; user 4 (Some "") None].

Definition s0 : BotManager := BotManager_init 0.

(** After a first cycle over [db1]. *)
Definition s1 : BotManager := (update_bots threads_finish db1 s0).2.

(** ... and then the worker of tenant 1 polling, ... *)
Definition s1_polling : BotManager := (thread_runs polls 1 s1).2.

(** ... or dead of a disconnect. *)
Definition s1_dead : BotManager := (thread_runs disconnects 1 s1).2.

Definition s1_dead_next : BotManager :=
  (update_bots threads_finish db1 s1_dead).2.

Definition s1_stuck : BotManager :=
  (update_bots threads_poll_on [] s1_polling).2.

Definition answers : network :=
  λ system_prompt prompt,
    inr {| status_code := 200; json_text := Some ("re: " +:+ prompt) |}.

Definition overloaded : network :=
  λ system_prompt prompt, inr {| status_code := 503; json_text := None |}.

Definition hello : Update := {| message := Some {| text := Some "hello" |} |}.

Definition worker1 : BotThread := BotThread_init "tok1" 1.

End Scenario.


(** ** More vocabulary: what else the code shows *)

(** Every worker is stored under its own user id, as
    [self.bots[user_id] = BotThread(token, user_id)] stores it. *)
Definition keyed (registry : gmap Z BotThread) : Prop :=
  ∀ k bot, registry !! k = Some bot → user_id bot = k.

(** The events that open or close a database session. *)
Definition session_event (e : event) : Prop :=
  e = SessionLocal ∨ e = db_close.

#[global] Instance session_event_dec e : Decision (session_event e).
Proof. unfold session_event. apply _. Defined.

(** The calls the two loops of [update_bots] make. *)
Definition loop_event (e : event) : Prop :=
  match e with
  | logger_info _ | logger_error _ | thread_stop _ _ | thread_join _
  | thread_start _ _ | application_stop _ | application_shutdown _ => True
  | _ => False
  end.

(** What [run] logs before it closes the loop. *)
Definition run_log (lib : ptb) (bot : BotThread) : list event :=
  match unexpected_error lib with
  | Some e => [logger_error (bot_error (user_id bot) e)]
  | None => []
  end.

(** ** [backend/main.py]: the endpoints around the fleet *)

(** [raise HTTPException(status_code=..., detail=...)] *)
Inductive HTTPException := http_exception (status_code : Z) (detail : string).

#[global] Instance HTTPException_eq_dec : EqDecision HTTPException.
Proof. solve_decision. Defined.

(** [db.query(User).filter(User.username == username).first()] *)
Definition query_by_username (db : database) (username : string) : option User.t :=
  head (filter (λ u, User.username u = username) db).

(** [db.commit()] after assignments to the attributes of a row object: the
    row with the object's primary key now holds the object's fields. *)
Definition commit (db : database) (user : User.t) : database :=
  (λ u, if bool_decide (User.id u = User.id user) then user else u) <$> db.

Module UserProfile.
Record t := mk {
  tg_bot_token : option string;
  vk_token : option string;
  system_prompt : option string
}.
End UserProfile.

Module AskRequest.
Record t := mk {
  prompt : string;
  user_id : option Z
}.
End AskRequest.

Definition set_tg_bot_token (v : option string) (u : User.t) : User.t :=
  User.mk (User.id u) (User.username u) (User.password_hash u)
    (User.is_active u) (User.is_admin u) v (User.vk_token u)
    (User.system_prompt u).

Definition set_vk_token (v : option string) (u : User.t) : User.t :=
  User.mk (User.id u) (User.username u) (User.password_hash u)
    (User.is_active u) (User.is_admin u) (User.tg_bot_token u) v
    (User.system_prompt u).

Definition set_system_prompt (v : option string) (u : User.t) : User.t :=
  User.mk (User.id u) (User.username u) (User.password_hash u)
    (User.is_active u) (User.is_admin u) (User.tg_bot_token u)
    (User.vk_token u) v.

Definition set_is_active (v : bool) (u : User.t) : User.t :=
  User.mk (User.id u) (User.username u) (User.password_hash u)
    v (User.is_admin u) (User.tg_bot_token u) (User.vk_token u)
    (User.system_prompt u).

(** The row object of [update_profile] after its three [if]s: a field of
    the profile that is not [None] is assigned. *)
Definition profile_applied (profile : UserProfile.t) (current_user : User.t)
  : User.t :=
  let u1 := match UserProfile.tg_bot_token profile with
            | Some t => set_tg_bot_token (Some t) current_user
            | None => current_user
            end in
  let u2 := match UserProfile.vk_token profile with
            | Some t => set_vk_token (Some t) u1
            | None => u1
            end in
  match UserProfile.system_prompt profile with
  | Some p => set_system_prompt (Some p) u2
  | None => u2
  end.

(** [update_profile]: the table after the commit, and the message. *)
Definition update_profile (profile : UserProfile.t) (current_user : User.t)
    (db : database) : database * string :=
  (commit db (profile_applied profile current_user), "Profile updated").

(** [get_profile]: username, tg_bot_token, vk_token, system_prompt. *)
Definition get_profile (current_user : User.t)
  : string * option string * option string * option string :=
  (User.username current_user, User.tg_bot_token current_user,
   User.vk_token current_user, User.system_prompt current_user).

(** [block_user]: the table after the commit and the message, or the
    exception raised. *)
Definition block_user (username : string) (current_user : User.t)
    (db : database) : HTTPException + database * string :=
  if negb (User.is_admin current_user)
  then inl (http_exception 403 "Not enough rights")
  else
    match query_by_username db username with
    | None => inl (http_exception 404 "User not found")
    | Some user => inr (commit db (set_is_active false user), "User blocked")
    end.

(** What [backend/auth.py] and the JWT library do; neither is among the
    sources, so they are parameters: [verify_password plain hash],
    [create_access_token sub] for the payload [{"sub": sub}], and
    [jwt_decode token], which is [None] when [jwt.decode] raises [JWTError]
    and otherwise the payload's ["sub"], if it has one. *)
Record Auth := {
  verify_password : string → string → bool;
  create_access_token : string → string;
  jwt_decode : string → option (option string)
}.

Definition credentials_exception : HTTPException :=
  http_exception 401 "Could not validate credentials".

(** [get_current_user] *)
Definition get_current_user (auth : Auth) (token : string) (db : database)
  : HTTPException + User.t :=
  match jwt_decode auth token with
  | None => inl credentials_exception
  | Some None => inl credentials_exception
  | Some (Some username) =>
      match query_by_username db username with
      | None => inl credentials_exception
      | Some user =>
          if negb (User.is_active user) then inl credentials_exception
          else inr user
      end
  end.

(** [login], for the username and password of the form: the access token,
    or the exception raised. *)
Definition login (auth : Auth) (username password : string) (db : database)
  : HTTPException + string :=
  match query_by_username db username with
  | None => inl (http_exception 400 "Incorrect username or password")
  | Some user =>
      if negb (verify_password auth password (User.password_hash user))
      then inl (http_exception 400 "Incorrect username or password")
      else if negb (User.is_active user)
      then inl (http_exception 403 "User is disabled")
      else inr (create_access_token auth (User.username user))
  end.

Definition dont_know : string :=
  "Извините, я не знаю, как ответить на это сообщение.".

(** [ask_question], inside the session of [get_db], which is closed when
    the endpoint is done.  [get_yandex_gpt_response] of [main.py] is, line
    for line, the one of [bot_manager.py].  [if request.user_id] is false
    for [None] and for [0]; [if user and user.system_prompt] is false
    without a row, and for a prompt that is [None] or empty. *)
Definition ask_question (net : network) (request : AskRequest.t) (db : database)
  : M (list event) string :=
  emit SessionLocal ;;;
  try_finally
    (match AskRequest.user_id request with
     | None => ret dont_know
     | Some user_id =>
         if bool_decide (user_id = 0) then ret dont_know
         else
           match query_first db user_id with
           | None => ret dont_know
           | Some user =>
               match User.system_prompt user with
               | None => ret dont_know
               | Some system_prompt =>
                   if bool_decide (system_prompt = "") then ret dont_know
                   else
                     get_yandex_gpt_response net (AskRequest.prompt request)
                       system_prompt
               end
           end
     end)
    (emit db_close).

(** ** [backend/telegram_bot.py]: the single bot in front of [/ask/] *)

Module telegram_bot.

Inductive event :=
| requests_post (prompt : option string)
| reply_text (text : string)
| logger_error (e : exn).

(** What the POST to [/ask/] gives back.  [answer] is [None] when
    [response.json()] raises or gives no dict, [Some None] for a dict
    without ["answer"], and otherwise the value under ["answer"]. *)
Record Response := {
  status_code : Z;
  answer : option (option string)
}.

Definition backend := option string → exn + Response.

Definition no_answer : string := "Нет ответа от модели.".

Definition server_error : string := "Произошла ошибка при обращении к серверу.".

Definition emit (e : event) : M (list event) unit := modify (λ tr, tr ++ [e]).

Definition ask_backend (server : backend) (prompt : option string)
  : M (list event) string :=
  try_except
    (emit (requests_post prompt) ;;;
     response <- match server prompt with
                 | inr response => ret response
                 | inl e => raise e
                 end ;;
     (if bool_decide (400 ≤ status_code response < 600)
      then raise (Exception "HTTPError") else ret tt) ;;;
     match answer response with
     | None => raise (Exception "AttributeError")
     | Some None => ret no_answer
     | Some (Some a) => ret a
     end)
    (λ e,
     emit (logger_error e) ;;;
     ret server_error).

(** [handle_message]: no guard here; [update.message.text] raises when the
    update has no message. *)
Definition handle_message (server : backend) (update : Update)
  : M (list event) unit :=
  match message update with
  | None => raise (Exception "AttributeError")
  | Some m =>
      response <- ask_backend server (text m) ;;
      emit (reply_text response)
  end.

End telegram_bot.

(** [/ask/] of [main.py] as the server of [telegram_bot.py]: the body
    [{"prompt": prompt}] has no [user_id]; a body whose prompt is not a
    string is refused with status 422 before [ask_question] runs. *)
Definition served_by_main (net : network) (db : database) : telegram_bot.backend :=
  λ prompt,
    match prompt with
    | None => inr {| telegram_bot.status_code := 422; telegram_bot.answer := None |}
    | Some p =>
        match (ask_question net (AskRequest.mk p None) db []).1 with
        | Ret a =>
            inr {| telegram_bot.status_code := 200;
                   telegram_bot.answer := Some (Some a) |}
        | _ => inr {| telegram_bot.status_code := 500; telegram_bot.answer := None |}
        end
    end.

(** The system prompt [ask_question] passes on, if it calls the model. *)
Definition asked_prompt (db : database) (request : AskRequest.t) : option string :=
  user_id ← AskRequest.user_id request;
  if bool_decide (user_id = 0) then None
  else
    system_prompt ← stored_prompt db user_id;
    if bool_decide (system_prompt = "") then None else Some system_prompt.

#[global] Instance User_eq_dec : EqDecision User.t.
Proof. solve_decision. Defined.

(** The token a row contributes to the desired state: none when the field
    is NULL or empty. *)
Definition token_of (u : User.t) : option string :=
  match User.tg_bot_token u with
  | Some t => if bool_decide (t = "") then None else Some t
  | None => None
  end.

(** ** A small office *)

Module Office.
Definition root : User.t :=
  User.mk 1 "root" "hash of secret" true true None None None.

Definition alice : User.t :=
  User.mk 2 "alice" "hash of wonderland" true false (Some "tokA") None
    (Some "be kind").

Definition bob : User.t :=
  User.mk 3 "bob" "hash of builder" true false None None (Some "").

Definition db : database := [root; alice; bob].

(** An authority whose token for a subject is the subject. *)
Definition auth : Auth :=
  {| verify_password := λ plain hash, bool_decide ("hash of " +:+ plain = hash);
     create_access_token := λ sub, sub;
     jwt_decode := λ token, Some (Some token) |}.

Definition new_token : UserProfile.t := UserProfile.mk (Some "tokB") None None.

Definition new_prompt : UserProfile.t :=
  UserProfile.mk None None (Some "be brief").

Definition worker_of_bob : BotThread := BotThread_init "tokB" 3.

Definition stuck_cycles : nat → cycle :=
  λ _, {| cycle_db := []; cycle_world := Scenario.threads_poll_on;
          cycle_duration := 1 |}.
End Office.

(** * Properties *)

(** ** The completion wrapper and [handle_message] *)

Lemma completion_calls_app tr1 tr2 :
  completion_calls (tr1 ++ tr2) = completion_calls tr1 ++ completion_calls tr2.
Proof. apply omap_app. Qed.

Lemma replies_app tr1 tr2 : replies (tr1 ++ tr2) = replies tr1 ++ replies tr2.
Proof. apply omap_app. Qed.

(** The wrapper posts once, returns a text whatever the endpoint does, and
    replies nothing itself. *)
Lemma get_yandex_gpt_response_returns net prompt system_prompt tr0 :
  ∃ response tr,
    get_yandex_gpt_response net prompt system_prompt tr0 = (Ret response, tr0 ++ tr)
    ∧ answer net prompt system_prompt = Ret response
    ∧ completion_calls tr = [(prompt, system_prompt)]
    ∧ replies tr = []
    ∧ (completion_fails net prompt system_prompt → response = degraded_answer).
Proof.
  unfold answer, completion_fails, get_yandex_gpt_response, try_except, post,
    raise_for_status, result_text, emit, modify, bind, ret, raise.
  destruct (net system_prompt prompt) as [e | response]; simpl.
  - exists degraded_answer, [requests_post system_prompt prompt; logger_error (gpt_error e)].
    rewrite <- app_assoc. simpl. auto.
  - case_bool_decide as Hstatus; simpl.
    + exists degraded_answer,
        [requests_post system_prompt prompt;
         logger_error (gpt_error (Exception "HTTPError"))].
      rewrite <- app_assoc. simpl. auto.
    + destruct (json_text response) as [t |] eqn:Htext; simpl.
      * exists t, [requests_post system_prompt prompt].
        repeat split; auto. intros [? | ?]; [contradiction | discriminate].
      * exists degraded_answer,
          [requests_post system_prompt prompt;
           logger_error (gpt_error (Exception "KeyError"))].
        rewrite <- app_assoc. simpl. auto.
Qed.

(** [handle_message] on a text message, by what the store holds. *)
Lemma handle_message_text net db self update user_message tr0 :
  message_text update = Some user_message →
  ∃ tr,
    handle_message net db self update tr0 = (Ret tt, tr0 ++ tr)
    ∧ match stored_prompt db (user_id self) with
      | Some system_prompt =>
          ∃ response,
            answer net user_message system_prompt = Ret response
            ∧ completion_calls tr = [(user_message, system_prompt)]
            ∧ replies tr = [response]
            ∧ (completion_fails net user_message system_prompt →
               response = degraded_answer)
      | None =>
          tr = [SessionLocal; reply_text not_configured; db_close]
      end.
Proof.
  intros Htext. unfold handle_message, stored_prompt. rewrite Htext.
  destruct (query_first db (user_id self)) as [user |] eqn:Huser; simpl.
  2: { exists [SessionLocal; reply_text not_configured; db_close].
       split; [| done].
       run_m. by rewrite <- !app_assoc. }
  destruct (User.system_prompt user) as [system_prompt |] eqn:Hprompt; simpl.
  2: { exists [SessionLocal; reply_text not_configured; db_close].
       split; [| done].
       run_m. by rewrite <- !app_assoc. }
  destruct (get_yandex_gpt_response_returns net user_message system_prompt
              (tr0 ++ [SessionLocal]))
    as (response & tr & Hrun & Hanswer & Hcalls & Hreplies & Hfail).
  exists ([SessionLocal] ++ tr ++ [reply_text response; db_close]). split.
  - unfold bind at 1, emit at 1, modify at 1. unfold try_finally, bind at 1.
    rewrite Hrun. run_m.
    f_equal. by rewrite <- !app_assoc.
  - exists response. repeat split; auto.
    + rewrite !completion_calls_app, Hcalls. done.
    + rewrite !replies_app, Hreplies. done.
Qed.

(** C3: a text message to a tenant whose stored system prompt is set makes
    one completion call and sends one reply, the text that call returned; a
    text message to a tenant without a stored system prompt makes no
    completion call and sends one reply, the fixed "not configured" text. *)
Theorem message_property net db self update user_message tr0 :
  message_text update = Some user_message →
  ∃ tr,
    handle_message net db self update tr0 = (Ret tt, tr0 ++ tr)
    ∧ match stored_prompt db (user_id self) with
      | Some system_prompt =>
          completion_calls tr = [(user_message, system_prompt)]
          ∧ ∃ response,
              answer net user_message system_prompt = Ret response
              ∧ replies tr = [response]
      | None =>
          completion_calls tr = [] ∧ replies tr = [not_configured]
      end.
Proof.
  intros Htext.
  destruct (handle_message_text net db self update user_message tr0 Htext)
    as (tr & Hrun & Hcase).
  exists tr. split; [done |].
  destruct (stored_prompt db (user_id self)) as [system_prompt |].
  - destruct Hcase as (response & ? & ? & ? & _). eauto.
  - subst tr. done.
Qed.

(** C6: with a stored system prompt, a failed completion call makes the
    worker reply the fixed degraded answer, and [handle_message] returns;
    the wrapper itself returns a text on every input and for every
    behaviour of the endpoint. *)
Theorem completion_failure_is_swallowed net db self update user_message
    system_prompt tr0 :
  message_text update = Some user_message →
  stored_prompt db (user_id self) = Some system_prompt →
  completion_fails net user_message system_prompt →
  (∃ tr,
     handle_message net db self update tr0 = (Ret tt, tr0 ++ tr)
     ∧ replies tr = [degraded_answer])
  ∧ (∀ net' prompt' system_prompt' tr',
       ∃ response tr'',
         get_yandex_gpt_response net' prompt' system_prompt' tr'
         = (Ret response, tr'')).
Proof.
  intros Htext Hprompt Hfail. split.
  - destruct (handle_message_text net db self update user_message tr0 Htext)
      as (tr & Hrun & Hcase).
    rewrite Hprompt in Hcase.
    destruct Hcase as (response & _ & _ & Hreplies & Hdegraded).
    exists tr. split; [done |]. by rewrite Hreplies, (Hdegraded Hfail).
  - intros net' prompt' system_prompt' tr'.
    destruct (get_yandex_gpt_response_returns net' prompt' system_prompt' tr')
      as (response & tr'' & Hrun & _).
    eauto.
Qed.

(** C10: when the store has no record at all for the worker's user id, a
    text message gets the fixed "not configured" reply and no completion
    call, [handle_message] returns, and it does exactly what it does for a
    record whose system prompt is unset. *)
Theorem absent_record_is_not_configured net db self update user_message tr0 :
  message_text update = Some user_message →
  query_first db (user_id self) = None →
  (∃ tr,
     handle_message net db self update tr0 = (Ret tt, tr0 ++ tr)
     ∧ completion_calls tr = []
     ∧ replies tr = [not_configured])
  ∧ (∀ db' user,
       query_first db' (user_id self) = Some user →
       User.system_prompt user = None →
       handle_message net db' self update tr0
       = handle_message net db self update tr0).
Proof.
  intros Htext Habsent. split.
  - destruct (handle_message_text net db self update user_message tr0 Htext)
      as (tr & Hrun & Hcase).
    unfold stored_prompt in Hcase. rewrite Habsent in Hcase. simpl in Hcase.
    subst tr. eauto.
  - intros db' user Huser Hunset.
    unfold handle_message. by rewrite Htext, Huser, Hunset, Habsent.
Qed.

(** ** One reconciliation cycle *)

Lemma BotThread_stop_eq w bot tr :
  BotThread_stop w (bot, tr)
  = (Ret tt, (halted bot,
              tr ++ thread_stop (user_id bot) (token bot) :: shutdown_events w bot)).
Proof.
  unfold shutdown_events, halted. run_t.
  destruct (application bot), (loop bot) as [l |]; simpl; try done.
  destruct (is_running l); simpl; [| done].
  destruct (stop_application w (user_id bot)); simpl;
    by rewrite <- ?app_assoc.
Qed.

Lemma BotThread_join_eq w bot tr :
  BotThread_join w (bot, tr)
  = (if thread_terminates w bot then Ret tt else Hang,
     (bot, tr ++ [thread_join (user_id bot)])).
Proof. run_t. by destruct (thread_terminates w bot). Qed.

Lemma started_app tr1 tr2 : started (tr1 ++ tr2) = started tr1 ++ started tr2.
Proof. apply omap_app. Qed.

Lemma stopped_app tr1 tr2 : stopped (tr1 ++ tr2) = stopped tr1 ++ stopped tr2.
Proof. apply omap_app. Qed.

Lemma started_shutdown_events w bot : started (shutdown_events w bot) = [].
Proof.
  unfold shutdown_events.
  by destruct (application bot), (loop bot) as [[] |],
       (stop_application w (user_id bot)).
Qed.

Lemma started_stop_events w k bot : started (stop_events w k bot) = [].
Proof.
  unfold stop_events. rewrite !started_app, started_shutdown_events. done.
Qed.

Lemma thread_stop_in_stop_events w k bot u t :
  thread_stop u t ∈ stop_events w k bot ↔ u = user_id bot ∧ t = token bot.
Proof.
  unfold stop_events, shutdown_events. split.
  - intros Hin.
    destruct (application bot), (loop bot) as [[] |],
      (stop_application w (user_id bot)); simpl in Hin;
      repeat (apply elem_of_cons in Hin as [Hin | Hin];
              [try discriminate Hin; try (by injection Hin as -> ->) |]);
      by apply elem_of_nil in Hin.
  - intros [-> ->]. set_solver.
Qed.

Lemma manager_eta s : {| bots := bots s; trace := trace s; now := now s |} = s.
Proof. by destruct s. Qed.

Lemma bind_eq {S A B} (c : M S A) (k : A → M S B) s r s' :
  c s = (r, s') →
  bind c k s
  = match r with
    | Ret a => k a s'
    | Exc e => (Exc e, s')
    | Hang => (Hang, s')
    end.
Proof. intros Hc. unfold bind. by rewrite Hc. Qed.

Lemma bot_token_eq k s bot :
  bots s !! k = Some bot → bot_token k s = (Ret (token bot), s).
Proof.
  intros Hbot. unfold bot_token, on_bot. rewrite Hbot. cbv [bind get ret]. simpl.
  by rewrite (insert_id _ _ _ Hbot), manager_eta.
Qed.

Lemma on_bot_stop w k s bot :
  bots s !! k = Some bot →
  on_bot k (BotThread_stop w) s
  = (Ret tt, {| bots := <[k := halted bot]> (bots s);
                trace := trace s ++ thread_stop (user_id bot) (token bot)
                           :: shutdown_events w bot;
                now := now s |}).
Proof. intros Hbot. unfold on_bot. by rewrite Hbot, BotThread_stop_eq. Qed.

Lemma on_bot_join w k s bot :
  bots s !! k = Some bot →
  on_bot k (BotThread_join w) s
  = (if thread_terminates w bot then Ret tt else Hang,
     {| bots := bots s; trace := trace s ++ [thread_join (user_id bot)];
        now := now s |}).
Proof.
  intros Hbot. unfold on_bot.
  by rewrite Hbot, BotThread_join_eq, (insert_id _ _ _ Hbot).
Qed.

Lemma bots_delitem_eq k s bot :
  bots s !! k = Some bot →
  bots_delitem k s
  = (Ret tt, {| bots := delete k (bots s); trace := trace s; now := now s |}).
Proof. intros Hbot. unfold bots_delitem. by rewrite Hbot. Qed.

(** One round of the first loop on a key the registry holds. *)
Lemma stop_bots_cons w user_tokens k keys s bot :
  bots s !! k = Some bot →
  stop_bots w user_tokens (k :: keys) s
  = if decide (stale user_tokens k bot) then
      let tr := trace s ++ stop_events w k bot in
      if thread_terminates w bot then
        stop_bots w user_tokens keys
          {| bots := delete k (bots s); trace := tr; now := now s |}
      else
        (Hang, {| bots := <[k := halted bot]> (bots s); trace := tr; now := now s |})
    else stop_bots w user_tokens keys s.
Proof.
  intros Hbot. cbn [stop_bots].
  assert (Hterm : thread_terminates w (halted bot) = thread_terminates w bot)
    by done.
  assert (Hstop :
    (emit_m (logger_info (stopping_bot k)) ;;;
     on_bot k (BotThread_stop w) ;;; on_bot k (BotThread_join w) ;;;
     bots_delitem k) s
    = (if thread_terminates w bot then Ret tt else Hang,
       {| bots := if thread_terminates w bot then delete k (bots s)
                  else <[k := halted bot]> (bots s);
          trace := trace s ++ stop_events w k bot;
          now := now s |})).
  { unfold bind at 1. unfold emit_m, modify. unfold bind at 1.
    rewrite (on_bot_stop w k _ bot) by done. cbn [bots trace now].
    unfold bind at 1.
    rewrite (on_bot_join w k _ (halted bot)) by (cbn; apply lookup_insert_eq).
    cbn [bots trace now user_id halted]. rewrite Hterm.
    unfold stop_events. rewrite <- !app_assoc. cbn [app].
    destruct (thread_terminates w bot); [| done].
    rewrite (bots_delitem_eq k _ (halted bot)) by (cbn; apply lookup_insert_eq).
    cbn [bots trace now]. by rewrite delete_insert_eq. }
  assert (Hchanged : ∃ changed : bool,
    match user_tokens !! k with
    | None => ret true
    | Some t => t' <- bot_token k ;; ret (bool_decide (t' ≠ t))
    end s = (Ret changed, s)
    ∧ (changed = true ↔ stale user_tokens k bot)).
  { unfold stale. destruct (user_tokens !! k) as [t |].
    - exists (bool_decide (token bot ≠ t)). split.
      + by rewrite (bind_eq _ _ _ _ _ (bot_token_eq k s bot Hbot)).
      + rewrite bool_decide_eq_true. split; congruence.
    - by exists true. }
  destruct Hchanged as (changed & Hchanged & Hiff).
  rewrite (bind_eq _ _ _ _ _ Hchanged).
  destruct (decide (stale user_tokens k bot)) as [Hstale | Hkept].
  - apply Hiff in Hstale as ->. rewrite (bind_eq _ _ _ _ _ Hstop).
    by destruct (thread_terminates w bot).
  - destruct changed; [by destruct Hkept; apply Hiff |]. done.
Qed.

(** The first loop, on a snapshot of keys the registry holds. *)
Lemma stop_bots_spec w user_tokens keys :
  ∀ s,
    NoDup keys →
    (∀ k, k ∈ keys → is_Some (bots s !! k)) →
    ∃ r s' tr,
      stop_bots w user_tokens keys s = (r, s')
      ∧ trace s' = trace s ++ tr
      ∧ now s' = now s
      ∧ started tr = []
      ∧ (∀ u t, thread_stop u t ∈ tr →
           ∃ k bot, k ∈ keys ∧ bots s !! k = Some bot
                    ∧ stale user_tokens k bot
                    ∧ u = user_id bot ∧ t = token bot)
      ∧ (∀ k bot, bots s !! k = Some bot →
           ¬ (k ∈ keys ∧ stale user_tokens k bot) →
           bots s' !! k = Some bot)
      ∧ match r with
        | Ret _ =>
            (∀ k, bots s' !! k = without_stale user_tokens keys (bots s) k)
            ∧ (∀ k bot, k ∈ keys → bots s !! k = Some bot →
                 stale user_tokens k bot →
                 thread_terminates w bot = true
                 ∧ thread_stop (user_id bot) (token bot) ∈ tr)
        | Hang =>
            ∃ k bot tr',
              k ∈ keys ∧ bots s !! k = Some bot
              ∧ stale user_tokens k bot
              ∧ thread_terminates w bot = false
              ∧ bots s' !! k = Some (halted bot)
              ∧ tr = tr' ++ [thread_join (user_id bot)]
        | Exc _ => False
        end.
Proof.
  induction keys as [| k0 keys IH]; intros s Hnodup Hheld.
  { exists (Ret tt), s, []. simpl. rewrite app_nil_r.
    split_and!; try done.
    - intros u t Hin. by apply elem_of_nil in Hin.
    - intros k. unfold without_stale.
      by destruct (bots s !! k).
    - by intros k bot ?%elem_of_nil. }
  apply NoDup_cons in Hnodup as [Hfresh Hnodup].
  destruct (Hheld k0) as [bot0 Hbot0]; [set_solver |].
  rewrite (stop_bots_cons w user_tokens k0 keys s bot0 Hbot0).
  destruct (decide (stale user_tokens k0 bot0)) as [Hstale | Hkept]; cbn zeta.
  - destruct (thread_terminates w bot0) eqn:Hterm.
    + destruct (IH {| bots := delete k0 (bots s);
                      trace := trace s ++ stop_events w k0 bot0;
                      now := now s |} Hnodup)
        as (r & s' & tr & Hrun & Htrace & Hnow & Hstarted & Hstops & Hsame & Hres).
      { intros k Hk. cbn. rewrite lookup_delete_ne by set_solver.
        apply Hheld. set_solver. }
      cbn in Htrace, Hnow, Hstops, Hsame, Hres.
      exists r, s', (stop_events w k0 bot0 ++ tr).
      split; [done |]. split; [by rewrite Htrace, app_assoc |].
      split; [done |].
      split; [by rewrite started_app, started_stop_events, Hstarted |].
      split.
      { intros u t [Hin | Hin]%elem_of_app.
        - apply thread_stop_in_stop_events in Hin as [-> ->].
          exists k0, bot0. set_solver.
        - destruct (Hstops u t Hin) as (k & bot & Hk & Hbot & ? & ? & ?).
          apply lookup_delete_Some in Hbot as [? Hbot].
          exists k, bot. set_solver. }
      split.
      { intros k bot Hbot Hnot. apply Hsame.
        - rewrite lookup_delete_ne; [done |]. intros <-.
          assert (bot = bot0) as -> by congruence.
          apply Hnot. set_solver.
        - intros [? ?]. apply Hnot. set_solver. }
      destruct r as [[] | e |]; [| done |].
      * destruct Hres as [Hbots Hall]. split.
        { intros k. rewrite Hbots. unfold without_stale.
          destruct (decide (k = k0)) as [-> | Hne].
          - rewrite lookup_delete_eq, Hbot0. simpl.
            rewrite decide_True; [done |].
            split; [apply elem_of_cons; by left | done].
          - rewrite lookup_delete_ne by done.
            destruct (bots s !! k) as [bot |]; simpl; [| done].
            assert (Hiff : k ∈ k0 :: keys ↔ k ∈ keys).
            { rewrite elem_of_cons. tauto. }
            destruct (decide (k ∈ keys ∧ stale user_tokens k bot)),
              (decide (k ∈ k0 :: keys ∧ stale user_tokens k bot));
              try done; exfalso; tauto. }
        { intros k bot [-> | Hk]%elem_of_cons Hbot Hst.
          - assert (bot = bot0) as -> by congruence. split; [done |].
            apply elem_of_app. left.
            by apply thread_stop_in_stop_events.
          - destruct (Hall k bot Hk) as [? ?]; [| done | ].
            + rewrite lookup_delete_ne; [done | by intros <-].
            + split; [done |]. apply elem_of_app. by right. }
      * destruct Hres as (k & bot & tr' & Hk & Hbot & Hst & Hnot & Hleft & ->).
        apply lookup_delete_Some in Hbot as [? Hbot].
        exists k, bot, (stop_events w k0 bot0 ++ tr').
        repeat split; try done; [set_solver | by rewrite app_assoc].
    + eexists Hang, _, (stop_events w k0 bot0).
      split; [done |]. cbn [trace now bots]. split; [done |]. split; [done |].
      split; [apply started_stop_events |].
      split.
      { intros u t Hin. apply thread_stop_in_stop_events in Hin as [-> ->].
        exists k0, bot0. set_solver. }
      split.
      { intros k bot Hbot Hnot. rewrite lookup_insert_ne; [done |]. intros <-.
        assert (bot = bot0) as -> by congruence.
        apply Hnot. set_solver. }
      exists k0, bot0,
        ([logger_info (stopping_bot k0); thread_stop (user_id bot0) (token bot0)]
         ++ shutdown_events w bot0).
      rewrite lookup_insert_eq. unfold stop_events. rewrite <- app_assoc.
      set_solver.
  - destruct (IH s Hnodup)
      as (r & s' & tr & Hrun & Htrace & Hnow & Hstarted & Hstops & Hsame & Hres).
    { intros k Hk. apply Hheld. set_solver. }
    exists r, s', tr. repeat (split; [done |]). split.
    { intros u t Hin.
      destruct (Hstops u t Hin) as (k & bot & ? & ? & ? & ? & ?).
      exists k, bot. set_solver. }
    split.
    { intros k bot Hbot Hnot. apply Hsame; [done |].
      intros [? ?]. apply Hnot. set_solver. }
    destruct r as [[] | e |]; [| done |].
    + destruct Hres as [Hbots Hall]. split.
      { intros k. rewrite Hbots. unfold without_stale.
        destruct (bots s !! k) as [bot |] eqn:Hbot; simpl; [| done].
        destruct (decide (k ∈ keys ∧ stale user_tokens k bot)),
          (decide (k ∈ k0 :: keys ∧ stale user_tokens k bot));
          try done; exfalso.
        - apply n. split; [apply elem_of_cons |]; tauto.
        - destruct a as [[-> | ?]%elem_of_cons ?]; [| tauto].
          assert (bot = bot0) as -> by congruence. done. }
      { intros k bot [-> | Hk]%elem_of_cons Hbot Hst.
        - assert (bot = bot0) as -> by congruence. done.
        - by apply (Hall k bot). }
    + destruct Hres as (k & bot & tr' & ? & ? & ? & ? & ? & ->).
      exists k, bot, tr'. set_solver.
Qed.

Lemma start_bots_cons k t items s :
  start_bots ((k, t) :: items) s
  = if decide (bots s !! k = None) then
      start_bots items
        {| bots := <[k := BotThread_init t k]> (bots s);
           trace := trace s ++ [logger_info (starting_bot k); thread_start k t];
           now := now s |}
    else start_bots items s.
Proof.
  cbn [start_bots]. rewrite (bind_eq get _ s (Ret s) s) by done.
  destruct (decide (bots s !! k = None)) as [Hnone | Hsome].
  - rewrite bool_decide_eq_true_2 by done.
    erewrite bind_eq; [| by cbv [bind emit_m bots_setitem modify] ].
    cbn [bots trace now]. by rewrite <- app_assoc.
  - rewrite bool_decide_eq_false_2 by done.
    by rewrite (bind_eq (ret tt) _ s (Ret tt) s).
Qed.

(** The second loop returns, and starts a worker exactly for the item keys
    the registry does not hold. *)
Lemma start_bots_spec items :
  ∀ s,
    ∃ s' tr,
      start_bots items s = (Ret tt, s')
      ∧ trace s' = trace s ++ tr
      ∧ now s' = now s
      ∧ stopped tr = []
      ∧ (∀ k, bots s' !! k = with_started (list_to_map items) (bots s) k)
      ∧ (∀ k t, thread_start k t ∈ tr ↔
           bots s !! k = None
           ∧ (list_to_map items : gmap Z string) !! k = Some t).
Proof.
  induction items as [| [k0 t0] items IH]; intros s.
  { exists s, []. cbn. rewrite app_nil_r. split_and!; try done.
    - intros k. unfold with_started. rewrite lookup_empty.
      by destruct (bots s !! k).
    - intros k t. split; [by intros ?%elem_of_nil |].
      intros [_ Hin]. by rewrite lookup_empty in Hin. }
  rewrite start_bots_cons. cbn [list_to_map foldr fst snd uncurry].
  destruct (decide (bots s !! k0 = None)) as [Hnone | Hsome].
  - destruct (IH {| bots := <[k0 := BotThread_init t0 k0]> (bots s);
                    trace := trace s ++ [logger_info (starting_bot k0);
                                         thread_start k0 t0];
                    now := now s |})
      as (s' & tr & Hrun & Htrace & Hnow & Hstopped & Hbots & Hstarts).
    cbn [bots trace now] in *.
    exists s', ([logger_info (starting_bot k0); thread_start k0 t0] ++ tr).
    split; [done |]. split; [by rewrite Htrace, app_assoc |].
    split; [done |]. split; [by rewrite stopped_app, Hstopped |].
    split.
    + intros k. rewrite Hbots. unfold with_started.
      destruct (decide (k = k0)) as [-> | Hne].
      * by rewrite !lookup_insert_eq, Hnone.
      * by rewrite !lookup_insert_ne.
    + intros k t. rewrite elem_of_app, Hstarts.
      destruct (decide (k = k0)) as [-> | Hne].
      * rewrite !lookup_insert_eq. split.
        -- intros [Hin | [? _]]; [| done]. split; [done |].
           apply elem_of_cons in Hin as [? | Hin]; [done |].
           apply list_elem_of_singleton in Hin. congruence.
        -- intros [_ [= ->]]. left.
           apply elem_of_cons. right. apply elem_of_cons. by left.
      * rewrite !lookup_insert_ne by done. split.
        -- intros [Hin | ?]; [| done].
           apply elem_of_cons in Hin as [? | Hin]; [done |].
           apply list_elem_of_singleton in Hin. congruence.
        -- intros ?. by right.
  - destruct (IH s)
      as (s' & tr & Hrun & Htrace & Hnow & Hstopped & Hbots & Hstarts).
    exists s', tr. repeat (split; [done |]). split.
    + intros k. rewrite Hbots. unfold with_started.
      destruct (decide (k = k0)) as [-> | Hne].
      * by destruct (bots s !! k0).
      * by rewrite lookup_insert_ne.
    + intros k t. rewrite Hstarts.
      destruct (decide (k = k0)) as [-> | Hne].
      * split; intros [? _]; done.
      * by rewrite lookup_insert_ne.
Qed.

(** [update_bots] is its two loops between opening and closing the
    session. *)
Lemma update_bots_eq w db s :
  update_bots w db s
  = match stop_bots w (desired db) (map_to_list (bots s)).*1
            (logged SessionLocal s) with
    | (Ret _, mid) =>
        match start_bots (map_to_list (desired db)) mid with
        | (Ret _, s') => (Ret tt, logged db_close s')
        | (Exc e, s') => (Exc e, logged db_close s')
        | (Hang, s') => (Hang, s')
        end
    | (Exc e, mid) => (Exc e, logged db_close mid)
    | (Hang, mid) => (Hang, mid)
    end.
Proof.
  unfold update_bots, desired.
  rewrite (bind_eq _ _ s (Ret tt) (logged SessionLocal s)) by done.
  unfold try_finally.
  rewrite (bind_eq get _ (logged SessionLocal s) (Ret (logged SessionLocal s))
             (logged SessionLocal s)) by done.
  cbn [logged bots].
  destruct (stop_bots _ _ _ _) as [[[] | e |] mid] eqn:Hstop.
  - rewrite (bind_eq _ _ _ _ _ Hstop).
    by destruct (start_bots _ mid) as [[[] | e |] s'].
  - by rewrite (bind_eq _ _ _ _ _ Hstop).
  - by rewrite (bind_eq _ _ _ _ _ Hstop).
Qed.

Lemma elem_of_keys (registry : gmap Z BotThread) k :
  k ∈ (map_to_list registry).*1 ↔ is_Some (registry !! k).
Proof.
  rewrite list_elem_of_fmap. split.
  - intros [[k' bot] [-> Hin]]. apply elem_of_map_to_list in Hin. eauto.
  - intros [bot Hbot]. exists (k, bot). by rewrite elem_of_map_to_list.
Qed.

Lemma without_stale_all user_tokens (registry : gmap Z BotThread) k :
  without_stale user_tokens (map_to_list registry).*1 registry k
  = kept user_tokens registry k.
Proof.
  unfold without_stale, kept.
  destruct (registry !! k) as [bot |] eqn:Hbot; simpl; [| done].
  assert (k ∈ (map_to_list registry).*1) by (apply elem_of_keys; eauto).
  destruct (decide (stale user_tokens k bot)).
  - by rewrite decide_True.
  - rewrite decide_False; [done | tauto].
Qed.

Lemma elem_of_started tr k t : (k, t) ∈ started tr ↔ thread_start k t ∈ tr.
Proof.
  unfold started. rewrite list_elem_of_omap. split.
  - intros [e [Hin He]]. destruct e; try discriminate. by injection He as -> ->.
  - intros Hin. by exists (thread_start k t).
Qed.

Lemma elem_of_stopped tr u : u ∈ stopped tr ↔ ∃ t, thread_stop u t ∈ tr.
Proof.
  unfold stopped. rewrite list_elem_of_omap. split.
  - intros [e [Hin He]]. destruct e; try discriminate.
    injection He as ->. eauto.
  - intros [t Hin]. by exists (thread_stop u t).
Qed.

Lemma started_nil tr : started tr = [] ↔ ∀ k t, thread_start k t ∉ tr.
Proof.
  split.
  - intros Hnil k t Hin. apply elem_of_started in Hin.
    rewrite Hnil in Hin. by apply elem_of_nil in Hin.
  - intros Hnone. apply elem_of_nil_inv. intros [k t] Hin.
    by apply elem_of_started, Hnone in Hin.
Qed.

Lemma stopped_nil tr : stopped tr = [] ↔ ∀ u t, thread_stop u t ∉ tr.
Proof.
  split.
  - intros Hnil u t Hin.
    assert (Hu : u ∈ stopped tr) by (apply elem_of_stopped; eauto).
    rewrite Hnil in Hu. by apply elem_of_nil in Hu.
  - intros Hnone. apply elem_of_nil_inv. intros u Hin.
    apply elem_of_stopped in Hin as [t Hin]. by apply Hnone in Hin.
Qed.

(** One cycle, whatever its outcome: it never raises, it leaves the clock
    and every worker that is not stale alone, and it starts workers only
    for desired tenants whose entry is missing or stale. *)
Lemma update_bots_spec w db s :
  ∃ r s' tr,
    update_bots w db s = (r, s')
    ∧ now s' = now s
    ∧ trace s' = trace s ++ tr
    ∧ (∀ k bot, bots s !! k = Some bot → ¬ stale (desired db) k bot →
         bots s' !! k = Some bot)
    ∧ (∀ k t, thread_start k t ∈ tr →
         kept (desired db) (bots s) k = None ∧ desired db !! k = Some t)
    ∧ match r with
      | Ret _ => ∃ mid tr_stop tr_start,
                   cycle_returned w db s s' mid tr_stop tr_start
      | Hang => cycle_hangs w db s s'
      | Exc _ => False
      end.
Proof.
  rewrite update_bots_eq.
  destruct (stop_bots_spec w (desired db) (map_to_list (bots s)).*1
              (logged SessionLocal s))
    as (r & mid & tr_stop & Hstop & Htrace & Hnow & Hstarted & Hstops & Hsame
        & Hres).
  { apply NoDup_fst_map_to_list. }
  { intros k Hk. by apply elem_of_keys. }
  rewrite Hstop. cbn [logged bots trace now] in *.
  destruct r as [[] | e |]; [| done |].
  - destruct Hres as [Hmid Hall].
    destruct (start_bots_spec (map_to_list (desired db)) mid)
      as (s' & tr_start & Hstart & Htrace' & Hnow' & Hstopped & Hbots & Hstarts).
    rewrite Hstart. rewrite list_to_map_to_list in Hbots, Hstarts.
    assert (Hkept : ∀ k, bots mid !! k = kept (desired db) (bots s) k).
    { intros k. by rewrite Hmid, without_stale_all. }
    exists (Ret tt), (logged db_close s'),
      (SessionLocal :: tr_stop ++ tr_start ++ [db_close]).
    split; [done |]. split; [cbn; congruence |].
    split; [cbn; by rewrite Htrace', Htrace, <- !app_assoc |].
    split.
    { intros k bot Hbot Hnot. cbn. rewrite Hbots. unfold with_started.
      by rewrite (Hsame k bot Hbot) by tauto. }
    split.
    { intros k t [? | Hin]%elem_of_cons; [done |].
      apply elem_of_app in Hin as [Hin | Hin].
      { by apply started_nil in Hin. }
      apply elem_of_app in Hin as [Hin | Hin].
      - apply Hstarts in Hin as [? ?]. by rewrite <- Hkept.
      - apply list_elem_of_singleton in Hin. done. }
    exists mid, tr_stop, tr_start. unfold cycle_returned.
    split; [done |]. split; [eauto |].
    split; [by rewrite Htrace, <- app_assoc |].
    split; [cbn; by rewrite Htrace', <- app_assoc |].
    split; [done |]. split; [done |]. split.
    { intros k bot Hbot Hstale. apply (Hall k bot); [| done | done].
      apply elem_of_keys. eauto. }
    split.
    { intros u t Hin.
      destruct (Hstops u t Hin) as (k & bot & _ & ? & ? & ? & ?). eauto 10. }
    done.
  - exists Hang, mid, (SessionLocal :: tr_stop). split; [done |].
    split; [done |]. split; [by rewrite Htrace, <- app_assoc |].
    split.
    { intros k bot Hbot Hnot. apply (Hsame k bot Hbot). tauto. }
    split.
    { intros k t [? | Hin]%elem_of_cons; [done |].
      by apply started_nil in Hin. }
    destruct Hres as (k & bot & tr' & _ & Hbot & Hstale & Hterm & Hleft & ->).
    exists k, bot, tr'. split_and!; try done.
    rewrite Htrace, <- !app_assoc. done.
Qed.

(** A cycle returns exactly when every stale worker's thread finishes. *)
Lemma update_bots_returns_iff w db s :
  (∃ s', update_bots w db s = (Ret tt, s'))
  ↔ (∀ k bot, bots s !! k = Some bot → stale (desired db) k bot →
       thread_terminates w bot = true).
Proof.
  destruct (update_bots_spec w db s)
    as (r & s' & tr & Hrun & _ & _ & _ & _ & Hres).
  split.
  - intros [s'' Hret]. rewrite Hret in Hrun. injection Hrun as <- <-.
    destruct Hres as (mid & tr_stop & tr_start & Hres).
    destruct Hres as (_ & _ & _ & _ & _ & _ & Hall & _).
    intros k bot Hbot Hstale. by apply (Hall k bot).
  - intros Hall. destruct r as [[] | e |]; [eauto | done |].
    destruct Hres as (k & bot & tr' & Hbot & Hstale & Hterm & _).
    rewrite (Hall k bot Hbot Hstale) in Hterm. done.
Qed.

Lemma update_bots_returned w db s s' :
  update_bots w db s = (Ret tt, s') →
  now s' = now s
  ∧ ∃ mid tr_stop tr_start, cycle_returned w db s s' mid tr_stop tr_start.
Proof.
  intros Hret.
  destruct (update_bots_spec w db s)
    as (r & s'' & tr & Hrun & Hnow & _ & _ & _ & Hres).
  rewrite Hret in Hrun. injection Hrun as <- <-. done.
Qed.

Lemma with_started_kept user_tokens registry mid k :
  (∀ k, mid !! k = kept user_tokens registry k) →
  with_started user_tokens mid k = reconciled user_tokens registry k.
Proof.
  intros Hmid. unfold with_started, reconciled. rewrite Hmid. unfold kept.
  destruct (registry !! k) as [bot |]; simpl.
  - destruct (decide (stale user_tokens k bot)) as [Hstale | Hkept].
    + unfold stale in Hstale.
      destruct (user_tokens !! k) as [t |]; simpl; [| done].
      rewrite decide_False; [done | congruence].
    + assert (Htoken : user_tokens !! k = Some (token bot)).
      { unfold stale in Hkept.
        by destruct (decide (user_tokens !! k = Some (token bot))). }
      rewrite Htoken. by rewrite decide_True.
  - by destruct (user_tokens !! k).
Qed.

Lemma update_bots_registry w db s s' :
  update_bots w db s = (Ret tt, s') →
  ∀ k, bots s' !! k = reconciled (desired db) (bots s) k.
Proof.
  intros Hret k.
  destruct (update_bots_returned w db s s' Hret)
    as (_ & mid & tr_stop & tr_start & Hres).
  destruct Hres as (_ & _ & _ & _ & _ & _ & _ & _ & Hmid & _ & Hbots).
  rewrite Hbots. by apply with_started_kept.
Qed.

(** ** The desired state *)

Lemma user_tokens_foldl users :
  ∀ (d : gmap Z string) k t,
    NoDup (User.id <$> users) →
    foldl (λ d user,
             match User.tg_bot_token user with
             | Some t => <[User.id user := t]> d
             | None => d
             end) d users !! k = Some t
    ↔ (∃ u, u ∈ users ∧ User.id u = k ∧ User.tg_bot_token u = Some t)
      ∨ (d !! k = Some t
         ∧ ∀ u, u ∈ users → User.id u = k → User.tg_bot_token u = None).
Proof.
  induction users as [| u0 users IH]; intros d k t Hnodup; cbn [foldl].
  { split; [intros ?; right; split; [done | by intros ? ?%elem_of_nil] |].
    intros [(u & Hin & _) | [? _]]; [by apply elem_of_nil in Hin | done]. }
  cbn in Hnodup. apply NoDup_cons in Hnodup as [Hfresh Hnodup].
  rewrite IH by done. clear IH.
  assert (Hids : ∀ u, u ∈ users → User.id u ≠ User.id u0).
  { intros u Hin Heq. apply Hfresh. rewrite <- Heq.
    by apply list_elem_of_fmap_2. }
  split.
  - intros [(u & Hin & ? & ?) | [Hd Hnone]].
    { left. exists u. set_solver. }
    destruct (User.tg_bot_token u0) as [t0 |] eqn:Ht0.
    + destruct (decide (User.id u0 = k)) as [<- | Hne].
      * rewrite lookup_insert_eq in Hd. injection Hd as ->.
        left. exists u0. set_solver.
      * rewrite lookup_insert_ne in Hd by done.
        right. split; [done |].
        intros u [-> | Hin]%elem_of_cons ?; [done | by apply Hnone].
    + right. split; [done |].
      intros u [-> | Hin]%elem_of_cons ?; [done | by apply Hnone].
  - intros [(u & [-> | Hin]%elem_of_cons & Hid & Htok) | [Hd Hnone]].
    + right. rewrite Htok, <- Hid, lookup_insert_eq. split; [done |].
      intros u Hin Heq. by destruct (Hids u Hin).
    + left. eauto.
    + right. split.
      * destruct (User.tg_bot_token u0) as [t0 |] eqn:Ht0; [| done].
        destruct (decide (User.id u0 = k)) as [Heq | Hne].
        -- rewrite (Hnone u0) in Ht0; [done | set_solver | done].
        -- by rewrite lookup_insert_ne.
      * intros u Hin. apply Hnone. set_solver.
Qed.

(** With user ids that are unique, as a primary key is, the desired state
    maps a user id to a token exactly when the table has that user with
    that token, and the token is not empty. *)
Lemma desired_lookup db k t :
  NoDup (User.id <$> db) →
  desired db !! k = Some t
  ↔ ∃ u, u ∈ db ∧ User.id u = k ∧ User.tg_bot_token u = Some t ∧ t ≠ "".
Proof.
  intros Hnodup. unfold desired, user_tokens_of, query_with_tokens.
  rewrite user_tokens_foldl.
  2: { eapply sublist_NoDup; [done |]. apply fmap_sublist, sublist_filter. }
  split.
  - intros [(u & Hin & ? & Htok) | [Hd _]]; [| by rewrite lookup_empty in Hd].
    apply list_elem_of_filter in Hin as [[_ Hne] Hin].
    exists u. split_and!; try done. intros ->. by rewrite Htok in Hne.
  - intros (u & Hin & ? & Htok & Hne). left. exists u. split_and!; try done.
    apply list_elem_of_filter. split; [| done].
    unfold has_token. rewrite Htok. split; congruence.
Qed.

Lemma reconciled_fixed user_tokens (registry registry' : gmap Z BotThread) k :
  (∀ k, registry' !! k = reconciled user_tokens registry k) →
  reconciled user_tokens registry' k = registry' !! k.
Proof.
  intros Hreg. unfold reconciled at 1. rewrite Hreg. unfold reconciled.
  destruct (user_tokens !! k) as [t |]; [| done].
  destruct (registry !! k) as [bot |]; [| by rewrite decide_True].
  destruct (decide (token bot = t)); by rewrite decide_True.
Qed.

(** After a returned cycle no worker is stale. *)
Lemma reconciled_not_stale user_tokens (registry registry' : gmap Z BotThread) k bot :
  (∀ k, registry' !! k = reconciled user_tokens registry k) →
  registry' !! k = Some bot → ¬ stale user_tokens k bot.
Proof.
  intros Hreg Hbot Hstale. apply Hstale. clear Hstale.
  rewrite Hreg in Hbot. unfold reconciled in Hbot.
  destruct (user_tokens !! k) as [t |]; [| done].
  destruct (registry !! k) as [bot' |].
  - destruct (decide (token bot' = t)); injection Hbot as <-; by f_equal.
  - by injection Hbot as <-.
Qed.

Lemma stop_bots_idle w user_tokens keys s :
  (∀ k, k ∈ keys → ∃ bot, bots s !! k = Some bot ∧ ¬ stale user_tokens k bot) →
  stop_bots w user_tokens keys s = (Ret tt, s).
Proof.
  induction keys as [| k0 keys IH]; intros Hfresh; [done |].
  destruct (Hfresh k0) as (bot & Hbot & Hkept); [set_solver |].
  rewrite (stop_bots_cons w user_tokens k0 keys s bot Hbot).
  rewrite decide_False by done. apply IH. intros k Hk. apply Hfresh. set_solver.
Qed.

Lemma start_bots_idle items s :
  (∀ k t, (k, t) ∈ items → is_Some (bots s !! k)) →
  start_bots items s = (Ret tt, s).
Proof.
  induction items as [| [k0 t0] items IH]; intros Hheld; [done |].
  rewrite start_bots_cons.
  destruct (Hheld k0 t0) as [bot Hbot]; [set_solver |].
  rewrite decide_False by congruence.
  apply IH. intros k t Hin. apply (Hheld k t). set_solver.
Qed.

Lemma registry_is_desired w db s s' :
  update_bots w db s = (Ret tt, s') →
  dom (bots s') = dom (desired db)
  ∧ ∀ k bot, bots s' !! k = Some bot → desired db !! k = Some (token bot).
Proof.
  intros Hret. pose proof (update_bots_registry w db s s' Hret) as Hreg. split.
  - apply set_eq. intros k. rewrite !elem_of_dom, Hreg. unfold reconciled.
    destruct (desired db !! k) as [t |].
    + split; [eauto |]. intros _.
      destruct (bots s !! k) as [bot |]; [| eauto].
      destruct (decide (token bot = t)); eauto.
    + split; intros [? ?]; done.
  - intros k bot Hbot.
    destruct (decide (desired db !! k = Some (token bot))) as [| Hne]; [done |].
    by destruct (reconciled_not_stale (desired db) (bots s) (bots s') k bot).
Qed.

(** C1: when [update_bots] has returned, the user ids in the registry are
    exactly the user ids of the desired state the cycle read, and every
    worker in the registry holds the desired token of its user id. *)
Theorem registry_matches_desired w db s s' :
  update_bots w db s = (Ret tt, s') →
  dom (bots s') = dom (desired db)
  ∧ ∀ k bot, bots s' !! k = Some bot → desired db !! k = Some (token bot).
Proof. apply registry_is_desired. Qed.

(** C4: after a cycle has returned, another cycle over the same desired
    state returns, starts no worker, stops no worker, and leaves the
    registry as it is. *)
Theorem second_cycle_is_idle w w' db s s1 :
  update_bots w db s = (Ret tt, s1) →
  ∃ s2 tr,
    update_bots w' db s1 = (Ret tt, s2)
    ∧ trace s2 = trace s1 ++ tr
    ∧ started tr = []
    ∧ stopped tr = []
    ∧ bots s2 = bots s1.
Proof.
  intros Hret. pose proof (update_bots_registry w db s s1 Hret) as Hreg.
  destruct (registry_is_desired w db s s1 Hret) as [Hdom _].
  exists (logged db_close (logged SessionLocal s1)), [SessionLocal; db_close].
  rewrite update_bots_eq, stop_bots_idle, start_bots_idle.
  - cbn. by rewrite <- app_assoc.
  - intros k t Hin. apply elem_of_map_to_list in Hin.
    cbn. apply elem_of_dom. rewrite Hdom. apply elem_of_dom. eauto.
  - intros k Hk. cbn. apply elem_of_keys in Hk as [bot Hbot].
    exists bot. split; [done |].
    by apply reconciled_not_stale with (registry := bots s) (registry' := bots s1).
Qed.



(** ** The supervisor's loop and its clock *)

Lemma cycle_starts_app tr1 tr2 :
  cycle_starts (tr1 ++ tr2) = cycle_starts tr1 ++ cycle_starts tr2.
Proof. apply omap_app. Qed.

Lemma cycle_stops_app tr1 tr2 :
  cycle_stops (tr1 ++ tr2) = cycle_stops tr1 ++ cycle_stops tr2.
Proof. apply omap_app. Qed.

Lemma unmarked_app tr1 tr2 : unmarked tr1 → unmarked tr2 → unmarked (tr1 ++ tr2).
Proof.
  intros [H1 H2] [H3 H4]. split.
  - by rewrite cycle_starts_app, H1, H3.
  - by rewrite cycle_stops_app, H2, H4.
Qed.

Lemma unmarked_stop_events w k bot : unmarked (stop_events w k bot).
Proof.
  unfold stop_events, shutdown_events.
  by destruct (application bot), (loop bot) as [[] |],
       (stop_application w (user_id bot)).
Qed.

Lemma stop_bots_unmarked w user_tokens keys :
  ∀ s,
    NoDup keys →
    (∀ k, k ∈ keys → is_Some (bots s !! k)) →
    ∃ tr, trace (stop_bots w user_tokens keys s).2 = trace s ++ tr ∧ unmarked tr.
Proof.
  induction keys as [| k0 keys IH]; intros s Hnodup Hheld.
  { exists []. by rewrite app_nil_r. }
  apply NoDup_cons in Hnodup as [Hfresh Hnodup].
  destruct (Hheld k0) as [bot0 Hbot0]; [set_solver |].
  rewrite (stop_bots_cons w user_tokens k0 keys s bot0 Hbot0).
  destruct (decide (stale user_tokens k0 bot0)); cbn zeta.
  - destruct (thread_terminates w bot0).
    + destruct (IH {| bots := delete k0 (bots s);
                      trace := trace s ++ stop_events w k0 bot0;
                      now := now s |} Hnodup) as (tr & Htrace & Htr).
      { intros k Hk. cbn. rewrite lookup_delete_ne by set_solver.
        apply Hheld. set_solver. }
      exists (stop_events w k0 bot0 ++ tr). split.
      * rewrite Htrace. cbn [trace]. by rewrite app_assoc.
      * apply unmarked_app; [apply unmarked_stop_events | done].
    + exists (stop_events w k0 bot0). split; [done |].
      apply unmarked_stop_events.
  - apply IH; [done |]. intros k Hk. apply Hheld. set_solver.
Qed.

Lemma start_bots_unmarked items :
  ∀ s, ∃ tr, trace (start_bots items s).2 = trace s ++ tr ∧ unmarked tr.
Proof.
  induction items as [| [k0 t0] items IH]; intros s.
  { exists []. by rewrite app_nil_r. }
  rewrite start_bots_cons. destruct (decide (bots s !! k0 = None)); [| apply IH].
  destruct (IH {| bots := <[k0 := BotThread_init t0 k0]> (bots s);
                  trace := trace s ++ [logger_info (starting_bot k0);
                                       thread_start k0 t0];
                  now := now s |}) as (tr & Htrace & Htr).
  exists ([logger_info (starting_bot k0); thread_start k0 t0] ++ tr). split.
  - rewrite Htrace. cbn [trace]. by rewrite <- app_assoc.
  - by apply unmarked_app.
Qed.

Lemma update_bots_unmarked w db s :
  ∃ tr, trace (update_bots w db s).2 = trace s ++ tr ∧ unmarked tr.
Proof.
  rewrite update_bots_eq.
  destruct (stop_bots_unmarked w (desired db) (map_to_list (bots s)).*1
              (logged SessionLocal s)) as (tr1 & Htr1 & Hq1).
  { apply NoDup_fst_map_to_list. }
  { intros k Hk. by apply elem_of_keys. }
  destruct (stop_bots _ _ _ _) as [r mid]. cbn in Htr1.
  assert (Hmid : ∃ tr, trace mid = trace s ++ tr ∧ unmarked tr).
  { exists ([SessionLocal] ++ tr1). split; [by rewrite Htr1, <- app_assoc |].
    by apply unmarked_app. }
  clear Htr1. destruct Hmid as (tr & Htr & Hq).
  assert (Hclose : ∀ s0 tr0, trace s0 = trace s ++ tr0 → unmarked tr0 →
            ∃ tr', trace (logged db_close s0) = trace s ++ tr' ∧ unmarked tr').
  { intros s0 tr0 H0 Hq0. exists (tr0 ++ [db_close]). split.
    - cbn. by rewrite H0, <- app_assoc.
    - by apply unmarked_app. }
  destruct r as [[] | e |]; [| by eapply Hclose | eauto].
  destruct (start_bots_unmarked (map_to_list (desired db)) mid)
    as (tr2 & Htr2 & Hq2).
  destruct (start_bots _ mid) as [r' s']. cbn in Htr2.
  assert (Hs' : trace s' = trace s ++ (tr ++ tr2)).
  { by rewrite Htr2, Htr, <- app_assoc. }
  destruct r' as [[] | e |]; cbn [snd].
  - eapply Hclose; [done |]. by apply unmarked_app.
  - eapply Hclose; [done |]. by apply unmarked_app.
  - exists (tr ++ tr2). split; [done |]. by apply unmarked_app.
Qed.

(** One round of the [while True]. *)
Lemma BotManager_run_S n env i s :
  BotManager_run (S n) env i s
  = match update_bots (cycle_world (env i)) (cycle_db (env i))
            (logged (cycle_begins (now s)) s) with
    | (Ret _, s1) =>
        let finish := now s1 + Z.of_nat (cycle_duration (env i)) in
        BotManager_run n env (S i)
          {| bots := bots s1;
             trace := trace s1 ++ [cycle_ends finish; time_sleep 10];
             now := finish + 10 |}
    | (Exc e, s1) => (Exc e, s1)
    | (Hang, s1) => (Hang, s1)
    end.
Proof.
  cbn [BotManager_run]. rewrite (bind_eq get _ s (Ret s) s) by done.
  rewrite (bind_eq _ _ s (Ret tt) (logged (cycle_begins (now s)) s)) by done.
  destruct (update_bots _ _ _) as [r s1] eqn:Hcycle.
  rewrite (bind_eq _ _ _ _ _ Hcycle).
  destruct r as [[] | e |]; [| done | done].
  cbv [bind get advance sleep emit_m modify ret]. cbn [bots trace now].
  by rewrite <- app_assoc.
Qed.




(** ** A worker that dies, and a worker that will not stop *)

Lemma BotThread_run_error lib bot tr e :
  unexpected_error lib = Some e →
  ∃ bot',
    BotThread_run lib (bot, tr)
    = (Ret tt, (bot', tr ++ [logger_error (bot_error (user_id bot) e);
                             loop_close (user_id bot)]))
    ∧ token bot' = token bot
    ∧ user_id bot' = user_id bot
    ∧ running bot' = running bot
    ∧ loop bot' = Some loop_closed.
Proof.
  unfold unexpected_error, BotThread_run. intros Herror.
  destruct lib as [build initialize start poll]. cbn in Herror.
  destruct build as [e0 |].
  { injection Herror as ->. eexists.
    split; [run_t; by rewrite <- app_assoc | done]. }
  destruct initialize as [e0 |].
  { injection Herror as ->. eexists.
    split; [run_t; by rewrite <- app_assoc | done]. }
  destruct start as [e0 |].
  { injection Herror as ->. eexists.
    split; [run_t; by rewrite <- app_assoc | done]. }
  destruct poll as [| | e0]; try discriminate.
  injection Herror as ->. eexists.
  split; [run_t; by rewrite <- app_assoc | done].
Qed.

(** C7: a worker whose [run] ends with an unexpected error logs the error
    and closes its loop, and that is all: the registry keeps the tenant's
    entry, and while the tenant is desired with the same token the next
    cycle, whatever its outcome, keeps that entry and starts no worker for
    the tenant. *)
Theorem worker_failure_is_not_reported lib w db s T bot e :
  bots s !! T = Some bot →
  unexpected_error lib = Some e →
  desired db !! T = Some (token bot) →
  ∃ s1 bot1,
    thread_runs lib T s = (Ret tt, s1)
    ∧ trace s1 = trace s ++ [logger_error (bot_error (user_id bot) e);
                             loop_close (user_id bot)]
    ∧ bots s1 = <[T := bot1]> (bots s)
    ∧ token bot1 = token bot
    ∧ loop bot1 = Some loop_closed
    ∧ ∃ r s2 tr,
        update_bots w db s1 = (r, s2)
        ∧ trace s2 = trace s1 ++ tr
        ∧ bots s2 !! T = Some bot1
        ∧ ∀ t, thread_start T t ∉ tr.
Proof.
  intros Hbot Herror Hdesired.
  destruct (BotThread_run_error lib bot (trace s) e Herror)
    as (bot1 & Hrun & Htoken & _ & _ & Hloop).
  eexists _, bot1. split.
  { unfold thread_runs, on_bot. by rewrite Hbot, Hrun. }
  cbn [bots trace]. split_and!; try done.
  set (s1 := {| bots := <[T := bot1]> (bots s); trace := _; now := now s |}).
  assert (Hbot1 : bots s1 !! T = Some bot1) by apply lookup_insert_eq.
  assert (Hfresh : ¬ stale (desired db) T bot1).
  { unfold stale. rewrite Hdesired, Htoken. tauto. }
  destruct (update_bots_spec w db s1)
    as (r & s2 & tr & Hcycle & _ & Htrace & Hsame & Hstarts & _).
  exists r, s2, tr. split_and!; try done.
  - by apply Hsame.
  - intros t Hin. apply Hstarts in Hin as [Hkept _].
    unfold kept in Hkept. rewrite Hbot1 in Hkept. simpl in Hkept.
    by rewrite decide_False in Hkept.
Qed.

(** C8: [stop] returns whatever the shutdown does, and the supervisor then
    joins the thread without a timeout.  So a cycle either returns, which it
    does when the thread of every worker it stops finishes, and then each of
    those workers is out of the registry when the first loop ends; or it
    never returns, which happens when such a thread does not finish: the
    cycle stays in that worker's [join], and the worker is still in the
    registry. *)
Theorem join_has_no_timeout w db s :
  (∀ bot tr, ∃ tr', BotThread_stop w (bot, tr) = (Ret tt, (halted bot, tr ++ tr')))
  ∧ (((∀ k bot, bots s !! k = Some bot → stale (desired db) k bot →
         thread_terminates w bot = true)
      ∧ ∃ s' mid tr_stop tr_start,
          update_bots w db s = (Ret tt, s')
          ∧ cycle_returned w db s s' mid tr_stop tr_start
          ∧ ∀ k bot, bots s !! k = Some bot → stale (desired db) k bot →
              bots mid !! k = None)
     ∨ ((∃ k bot, bots s !! k = Some bot ∧ stale (desired db) k bot
                  ∧ thread_terminates w bot = false)
        ∧ ∃ s', update_bots w db s = (Hang, s') ∧ cycle_hangs w db s s')).
Proof.
  split.
  { intros bot tr. eexists. apply BotThread_stop_eq. }
  destruct (update_bots_spec w db s)
    as (r & s' & tr & Hcycle & _ & _ & _ & _ & Hres).
  destruct r as [[] | e |]; [| done |].
  - left. destruct Hres as (mid & tr_stop & tr_start & Hres). split.
    + apply update_bots_returns_iff. eauto.
    + exists s', mid, tr_stop, tr_start. split; [done |]. split; [done |].
      destruct Hres as (_ & _ & _ & _ & _ & _ & _ & _ & Hkept & _).
      intros k bot Hbot Hstale. rewrite Hkept. unfold kept. rewrite Hbot. simpl.
      by rewrite decide_True.
  - right. split; [| eauto].
    destruct Hres as (k & bot & tr' & ? & ? & ? & _). eauto.
Qed.

(** ** A small fleet *)

(** The scenario of the specification: one tenant, then its token changes
    and a second tenant appears, then both are gone. *)
Example end_to_end :
  let s2 := (update_bots Scenario.threads_finish Scenario.db2 Scenario.s1).2 in
  let s3 := (update_bots Scenario.threads_finish [] s2).2 in
  started (trace Scenario.s1) = [(1, "tok1")]
  ∧ stopped (events_since Scenario.s1 s2) = [1]
  ∧ token <$> bots s2 = {[1 := "tok2"; 2 := "tokA"]}
  ∧ bots s3 = ∅.
Proof. vm_compute. done. Qed.

Lemma registry_matches_desired_witness :
  update_bots Scenario.threads_finish Scenario.db1 Scenario.s0
  = (Ret tt, Scenario.s1)
  ∧ dom (bots Scenario.s1) = dom (desired Scenario.db1)
  ∧ ∀ k bot, bots Scenario.s1 !! k = Some bot →
      desired Scenario.db1 !! k = Some (token bot).
Proof.
  assert (H : update_bots Scenario.threads_finish Scenario.db1 Scenario.s0
              = (Ret tt, Scenario.s1)) by (vm_compute; reflexivity).
  split; [exact H |].
  exact (registry_matches_desired _ _ _ _ H).
Defined.

Lemma second_cycle_is_idle_witness :
  update_bots Scenario.threads_finish Scenario.db1 Scenario.s0
  = (Ret tt, Scenario.s1)
  ∧ ∃ s2 tr,
      update_bots Scenario.threads_poll_on Scenario.db1 Scenario.s1 = (Ret tt, s2)
      ∧ trace s2 = trace Scenario.s1 ++ tr
      ∧ started tr = []
      ∧ stopped tr = []
      ∧ bots s2 = bots Scenario.s1.
Proof.
  assert (H : update_bots Scenario.threads_finish Scenario.db1 Scenario.s0
              = (Ret tt, Scenario.s1)) by (vm_compute; reflexivity).
  split; [exact H |].
  exact (second_cycle_is_idle _ Scenario.threads_poll_on _ _ _ H).
Defined.



Lemma message_property_witness :
  message_text Scenario.hello = Some "hello"
  ∧ ∃ tr,
      handle_message Scenario.answers Scenario.db1 Scenario.worker1
        Scenario.hello [] = (Ret tt, [] ++ tr)
      ∧ match stored_prompt Scenario.db1 (user_id Scenario.worker1) with
        | Some system_prompt =>
            completion_calls tr = [("hello", system_prompt)]
            ∧ ∃ response,
                answer Scenario.answers "hello" system_prompt = Ret response
                ∧ replies tr = [response]
        | None => completion_calls tr = [] ∧ replies tr = [not_configured]
        end.
Proof.
  split; [reflexivity |].
  apply (message_property Scenario.answers Scenario.db1 Scenario.worker1
           Scenario.hello "hello" []).
  reflexivity.
Defined.

Lemma completion_failure_is_swallowed_witness :
  message_text Scenario.hello = Some "hello"
  ∧ stored_prompt Scenario.db1 (user_id Scenario.worker1) = Some "be brief"
  ∧ completion_fails Scenario.overloaded "hello" "be brief"
  ∧ ∃ tr,
      handle_message Scenario.overloaded Scenario.db1 Scenario.worker1
        Scenario.hello [] = (Ret tt, [] ++ tr)
      ∧ replies tr = [degraded_answer].
Proof.
  assert (H1 : message_text Scenario.hello = Some "hello") by reflexivity.
  assert (H2 : stored_prompt Scenario.db1 (user_id Scenario.worker1)
               = Some "be brief") by reflexivity.
  assert (H3 : completion_fails Scenario.overloaded "hello" "be brief").
  { unfold completion_fails. simpl. left. lia. }
  split; [exact H1 |]. split; [exact H2 |]. split; [exact H3 |].
  exact (proj1 (completion_failure_is_swallowed Scenario.overloaded Scenario.db1
                  Scenario.worker1 Scenario.hello "hello" "be brief" []
                  H1 H2 H3)).
Defined.

Lemma absent_record_is_not_configured_witness :
  message_text Scenario.hello = Some "hello"
  ∧ query_first [] (user_id Scenario.worker1) = None
  ∧ ∃ tr,
      handle_message Scenario.answers [] Scenario.worker1 Scenario.hello []
      = (Ret tt, [] ++ tr)
      ∧ completion_calls tr = []
      ∧ replies tr = [not_configured].
Proof.
  assert (H1 : message_text Scenario.hello = Some "hello") by reflexivity.
  assert (H2 : query_first [] (user_id Scenario.worker1) = None) by reflexivity.
  split; [exact H1 |]. split; [exact H2 |].
  exact (proj1 (absent_record_is_not_configured Scenario.answers []
                  Scenario.worker1 Scenario.hello "hello" [] H1 H2)).
Defined.

(** Counterexample to C7 as stated: the worker of tenant 1 dies of a
    disconnect, the tenant is still desired with the same token, and the
    next cycle starts nothing; the dead worker stays in the registry. *)
Lemma dead_worker_is_not_restarted :
  unexpected_error Scenario.disconnects = Some (Exception "NetworkError")
  ∧ thread_runs Scenario.disconnects 1 Scenario.s1 = (Ret tt, Scenario.s1_dead)
  ∧ desired Scenario.db1 !! 1 = Some "tok1"
  ∧ update_bots Scenario.threads_finish Scenario.db1 Scenario.s1_dead
    = (Ret tt, Scenario.s1_dead_next)
  ∧ events_since Scenario.s1_dead Scenario.s1_dead_next = [SessionLocal; db_close]
  ∧ started (events_since Scenario.s1_dead Scenario.s1_dead_next) = []
  ∧ loop <$> bots Scenario.s1_dead_next !! 1 = Some (Some loop_closed).
Proof. vm_compute. done. Qed.

Lemma worker_failure_is_not_reported_witness :
  bots Scenario.s1 !! 1 = Some Scenario.worker1
  ∧ unexpected_error Scenario.disconnects = Some (Exception "NetworkError")
  ∧ desired Scenario.db1 !! 1 = Some (token Scenario.worker1)
  ∧ ∃ s1 bot1,
      thread_runs Scenario.disconnects 1 Scenario.s1 = (Ret tt, s1)
      ∧ trace s1 = trace Scenario.s1
          ++ [logger_error (bot_error (user_id Scenario.worker1)
                              (Exception "NetworkError"));
              loop_close (user_id Scenario.worker1)]
      ∧ bots s1 = <[1 := bot1]> (bots Scenario.s1)
      ∧ token bot1 = token Scenario.worker1
      ∧ loop bot1 = Some loop_closed
      ∧ ∃ r s2 tr,
          update_bots Scenario.threads_finish Scenario.db1 s1 = (r, s2)
          ∧ trace s2 = trace s1 ++ tr
          ∧ bots s2 !! 1 = Some bot1
          ∧ ∀ t, thread_start 1 t ∉ tr.
Proof.
  assert (H1 : bots Scenario.s1 !! 1 = Some Scenario.worker1)
    by (vm_compute; reflexivity).
  assert (H2 : unexpected_error Scenario.disconnects
               = Some (Exception "NetworkError")) by reflexivity.
  assert (H3 : desired Scenario.db1 !! 1 = Some (token Scenario.worker1))
    by (vm_compute; reflexivity).
  split; [exact H1 |]. split; [exact H2 |]. split; [exact H3 |].
  exact (worker_failure_is_not_reported Scenario.disconnects
           Scenario.threads_finish Scenario.db1 Scenario.s1 1 Scenario.worker1
           (Exception "NetworkError") H1 H2 H3).
Defined.

(** Counterexample to C8 as stated: tenant 1 is gone from the desired state
    while its worker polls; [stop] cannot run on the busy loop and logs
    that, the thread never finishes, and the cycle never leaves [join]: it
    does not proceed, and the entry is still in the registry. *)
Lemma cycle_stays_in_join :
  thread_runs Scenario.polls 1 Scenario.s1 = (Hang, Scenario.s1_polling)
  ∧ desired [] !! 1 = None
  ∧ update_bots Scenario.threads_poll_on [] Scenario.s1_polling
    = (Hang, Scenario.s1_stuck)
  ∧ events_since Scenario.s1_polling Scenario.s1_stuck
    = [SessionLocal; logger_info (stopping_bot 1); thread_stop 1 "tok1";
       logger_error (stop_error 1 Scenario.loop_is_busy); thread_join 1]
  ∧ bots Scenario.s1_stuck !! 1
    = Some {| token := "tok1"; user_id := 1;
              application := Some (application_of "tok1");
              running := false; loop := Some loop_running |}.
Proof. vm_compute. done. Qed.



(** * What else the code shows *)

(** ** [get_yandex_gpt_response] and [BotThread.handle_message] *)

(** The wrapper, by the two ways a call can go. *)
Lemma get_yandex_gpt_response_cases net prompt system_prompt tr0 :
  (completion_fails net prompt system_prompt
   ∧ ∃ e, get_yandex_gpt_response net prompt system_prompt tr0
          = (Ret degraded_answer,
             tr0 ++ [requests_post system_prompt prompt;
                     logger_error (gpt_error e)]))
  ∨ (¬ completion_fails net prompt system_prompt
     ∧ ∃ response t,
         net system_prompt prompt = inr response
         ∧ json_text response = Some t
         ∧ get_yandex_gpt_response net prompt system_prompt tr0
           = (Ret t, tr0 ++ [requests_post system_prompt prompt])).
Proof.
  unfold completion_fails, get_yandex_gpt_response, try_except, post,
    raise_for_status, result_text, emit, modify, bind, ret, raise.
  destruct (net system_prompt prompt) as [e | response]; simpl.
  - left. split; [done |]. exists e. by rewrite <- app_assoc.
  - case_bool_decide as Hstatus; simpl.
    + left. split; [by left |]. eexists. by rewrite <- app_assoc.
    + destruct (json_text response) as [t |] eqn:Htext; simpl.
      * right. split; [intros [? | ?]; done |]. eauto.
      * left. split; [by right |]. eexists. by rewrite <- app_assoc.
Qed.


(** [handle_message] on a text message, event by event. *)
Lemma handle_message_trace net db self update user_message tr0 :
  message_text update = Some user_message →
  ∃ middle answer_text,
    handle_message net db self update tr0
    = (Ret tt, tr0 ++ SessionLocal :: middle
                   ++ [reply_text answer_text; db_close])
    ∧ Forall (λ e, ¬ session_event e) middle
    ∧ replies middle = [].
Proof.
  intros Htext. unfold handle_message. rewrite Htext.
  assert (Hfixed :
    (emit SessionLocal ;;;
     try_finally (emit (reply_text not_configured)) (emit db_close)) tr0
    = (Ret tt, tr0 ++ SessionLocal :: [] ++ [reply_text not_configured; db_close])).
  { run_m. by rewrite <- !app_assoc. }
  destruct (query_first db (user_id self)) as [user |];
    [| exists [], not_configured; by rewrite Hfixed].
  destruct (User.system_prompt user) as [system_prompt |];
    [| exists [], not_configured; by rewrite Hfixed].
  clear Hfixed.
  unfold bind at 1, emit at 1, modify at 1. unfold try_finally, bind at 1.
  destruct (get_yandex_gpt_response_cases net user_message system_prompt
              (tr0 ++ [SessionLocal]))
    as [[_ [e Hrun]] | [_ (response & t & _ & _ & Hrun)]]; rewrite Hrun; run_m.
  - exists [requests_post system_prompt user_message; logger_error (gpt_error e)],
      degraded_answer.
    split; [by rewrite <- !app_assoc |]. split; [| done].
    repeat constructor; intros [? | ?]; discriminate.
  - exists [requests_post system_prompt user_message], t.
    split; [by rewrite <- !app_assoc |]. split; [| done].
    repeat constructor; intros [? | ?]; discriminate.
Qed.


(** X3: for a text message [handle_message] opens one session, replies
    once, and closes the session after the reply, as the last thing it
    does; nothing in between opens or closes a session or replies. *)
Theorem handle_message_closes_its_session net db self update user_message tr0 :
  message_text update = Some user_message →
  ∃ middle answer_text,
    handle_message net db self update tr0
    = (Ret tt, tr0 ++ SessionLocal :: middle
                   ++ [reply_text answer_text; db_close])
    ∧ Forall (λ e, ¬ session_event e) middle
    ∧ replies middle = [].
Proof. apply handle_message_trace. Qed.

(** ** [BotThread.run] and [BotThread.stop] *)

(** [run], by its outcome. *)
Lemma BotThread_run_outcome lib bot tr :
  ∃ r bot' tr',
    BotThread_run lib (bot, tr) = (r, (bot', tr'))
    ∧ token bot' = token bot
    ∧ user_id bot' = user_id bot
    ∧ running bot' = running bot
    ∧ match r with
      | Ret _ =>
          (is_Some (unexpected_error lib) ∨ run_polling lib = polling_returns)
          ∧ loop bot' = Some loop_closed
          ∧ tr' = tr ++ run_log lib bot ++ [loop_close (user_id bot)]
      | Hang =>
          unexpected_error lib = None
          ∧ run_polling lib = polls_forever
          ∧ loop bot' = Some loop_running
          ∧ application bot' = Some (application_of (token bot))
          ∧ tr' = tr
      | Exc _ => False
      end.
Proof.
  unfold run_log, unexpected_error, BotThread_run.
  destruct lib as [[e1 |] [e2 |] [e3 |] [| | e4]]; cbn [build_raises
    initialize_raises start_raises run_polling];
    (eexists _, _, _; split; [run_t; reflexivity |]); cbn;
    rewrite <- ?app_assoc; split_and!; eauto.
Qed.

(** X4: [run] never raises and never touches the token, the user id or
    [running].  When it returns it has closed its loop as the last thing it
    did, after logging the exception if one was raised; the only way it
    does not return is that nothing was raised and [run_polling] polls
    forever, and then the application is built and the loop is running. *)
Theorem run_ends_with_its_loop_closed lib bot tr :
  ∃ r bot' tr',
    BotThread_run lib (bot, tr) = (r, (bot', tr'))
    ∧ token bot' = token bot
    ∧ user_id bot' = user_id bot
    ∧ running bot' = running bot
    ∧ match r with
      | Ret _ =>
          (is_Some (unexpected_error lib) ∨ run_polling lib = polling_returns)
          ∧ loop bot' = Some loop_closed
          ∧ tr' = tr ++ run_log lib bot ++ [loop_close (user_id bot)]
      | Hang =>
          unexpected_error lib = None
          ∧ run_polling lib = polls_forever
          ∧ loop bot' = Some loop_running
          ∧ application bot' = Some (application_of (token bot))
          ∧ tr' = tr
      | Exc _ => False
      end.
Proof. apply BotThread_run_outcome. Qed.

(** X5: [stop] attempts a shutdown exactly when the worker has built its
    application and its loop is running; on any other worker (not yet in
    [run], or past it) it only clears [running], whatever the world. *)
Theorem stop_only_reaches_a_running_loop w bot tr :
  BotThread_stop w (bot, tr)
  = (Ret tt, (halted bot, tr ++ [thread_stop (user_id bot) (token bot)]))
  ↔ application bot = None ∨ loop bot ≠ Some loop_running.
Proof.
  rewrite BotThread_stop_eq. unfold shutdown_events. split.
  - intros Heq. injection Heq as Heq. apply app_inv_head in Heq.
    destruct (application bot); [| by left]. right.
    destruct (loop bot) as [[] |]; try done.
    cbn in Heq. by destruct (stop_application w (user_id bot)).
  - intros [-> | Hloop]; [done |].
    destruct (application bot); [| done].
    by destruct (loop bot) as [[] |].
Qed.

(** X6: nothing reads the [running] flag that [stop] clears: [run] and
    [handle_message] do on a stopped worker object what they do on the
    object before [stop]. *)
Theorem running_is_never_read lib net db bot update tr :
  BotThread_run lib (halted bot, tr)
  = ((BotThread_run lib (bot, tr)).1,
     (halted (BotThread_run lib (bot, tr)).2.1,
      (BotThread_run lib (bot, tr)).2.2))
  ∧ handle_message net db (halted bot) update = handle_message net db bot update.
Proof.
  split; [| done].
  unfold BotThread_run.
  destruct lib as [[e1 |] [e2 |] [e3 |] [| | e4]]; cbn [build_raises
    initialize_raises start_raises run_polling]; by run_t.
Qed.

(** ** [BotManager.update_bots] *)

Lemma update_bots_never_raises_at w db s e :
  update_bots w db s ≠ (Exc e, (update_bots w db s).2).
Proof.
  destruct (update_bots_spec w db s) as (r & s' & tr & Hrun & _ & _ & _ & _ & Hres).
  rewrite Hrun. cbn. intros [= ->]. done.
Qed.

(** X7: [update_bots] never raises: iterating over the snapshot of the
    keys, every [self.bots[user_id]] and every [del self.bots[user_id]]
    finds its key, for every registry, table and world. *)
Theorem update_bots_never_raises w db s e :
  (update_bots w db s).1 ≠ Exc e.
Proof.
  intros Hexc. apply (update_bots_never_raises_at w db s e).
  rewrite <- Hexc. by destruct (update_bots w db s).
Qed.

(** The first loop keeps the registry keyed. *)
Lemma stop_bots_keyed w user_tokens keys :
  ∀ s,
    NoDup keys →
    (∀ k, k ∈ keys → is_Some (bots s !! k)) →
    keyed (bots s) →
    keyed (bots (stop_bots w user_tokens keys s).2).
Proof.
  induction keys as [| k0 keys IH]; intros s Hnodup Hheld Hkeyed; [done |].
  apply NoDup_cons in Hnodup as [Hfresh Hnodup].
  destruct (Hheld k0) as [bot0 Hbot0]; [set_solver |].
  rewrite (stop_bots_cons w user_tokens k0 keys s bot0 Hbot0).
  destruct (decide (stale user_tokens k0 bot0)); cbn zeta.
  - destruct (thread_terminates w bot0).
    + apply IH; [done | |].
      * intros k Hk. cbn. rewrite lookup_delete_ne by set_solver.
        apply Hheld. set_solver.
      * intros k bot Hbot. cbn in Hbot.
        apply lookup_delete_Some in Hbot as [_ Hbot]. by apply Hkeyed.
    + intros k bot Hbot. cbn in Hbot.
      apply lookup_insert_Some in Hbot as [[<- <-] | [_ Hbot]].
      * by apply (Hkeyed k0 bot0).
      * by apply Hkeyed.
  - apply IH; [done | | done]. intros k Hk. apply Hheld. set_solver.
Qed.

Lemma start_bots_keyed items :
  ∀ s, keyed (bots s) → keyed (bots (start_bots items s).2).
Proof.
  induction items as [| [k0 t0] items IH]; intros s Hkeyed; [done |].
  rewrite start_bots_cons. destruct (decide (bots s !! k0 = None)); [| by apply IH].
  apply IH. intros k bot Hbot. cbn in Hbot.
  apply lookup_insert_Some in Hbot as [[<- <-] | [_ Hbot]]; [done |].
  by apply Hkeyed.
Qed.

Lemma update_bots_keyed w db s :
  keyed (bots s) → keyed (bots (update_bots w db s).2).
Proof.
  intros Hkeyed. rewrite update_bots_eq.
  pose proof (stop_bots_keyed w (desired db) (map_to_list (bots s)).*1
                (logged SessionLocal s)) as Hstop.
  destruct (stop_bots _ _ _ _) as [r mid]. cbn [snd] in Hstop.
  assert (Hmid : keyed (bots mid)).
  { apply Hstop; [apply NoDup_fst_map_to_list | | done].
    intros k Hk. by apply elem_of_keys. }
  destruct r as [[] | e |]; [| done | done].
  pose proof (start_bots_keyed (map_to_list (desired db)) mid Hmid) as Hstart.
  by destruct (start_bots _ mid) as [[[] | e |] s'].
Qed.

(** X8: every worker is stored under its own user id.  The empty registry
    of [__init__] has this, a cycle keeps it whatever its outcome, and so
    does a worker thread running [run] on its object. *)
Theorem registry_stays_keyed :
  (∀ t, keyed (bots (BotManager_init t)))
  ∧ (∀ w db s, keyed (bots s) → keyed (bots (update_bots w db s).2))
  ∧ (∀ lib k s, keyed (bots s) → keyed (bots (thread_runs lib k s).2)).
Proof.
  split; [by intros t k bot ? |]. split; [apply update_bots_keyed |].
  intros lib k s Hkeyed. unfold thread_runs, on_bot.
  destruct (bots s !! k) as [bot |] eqn:Hbot; [| done].
  destruct (BotThread_run_outcome lib bot (trace s))
    as (r & bot' & tr' & Hrun & _ & Huser & _).
  rewrite Hrun. intros k' b Hb. cbn in Hb.
  apply lookup_insert_Some in Hb as [[<- <-] | [_ Hb]]; [| by apply Hkeyed].
  rewrite Huser. by apply (Hkeyed k bot).
Qed.

Lemma stopped_stop_events w k bot : stopped (stop_events w k bot) = [user_id bot].
Proof.
  unfold stop_events, shutdown_events.
  by destruct (application bot), (loop bot) as [[] |],
       (stop_application w (user_id bot)).
Qed.

Lemma loop_event_stop_events w k bot : Forall loop_event (stop_events w k bot).
Proof.
  unfold stop_events, shutdown_events.
  destruct (application bot), (loop bot) as [[] |],
    (stop_application w (user_id bot)); by repeat constructor.
Qed.

(** The events of the first loop, whatever its outcome: only calls of the
    loop, no worker started, and in a keyed registry no worker stopped
    twice. *)
Lemma stop_bots_events w user_tokens keys :
  ∀ s,
    NoDup keys →
    (∀ k, k ∈ keys → is_Some (bots s !! k)) →
    ∃ tr,
      trace (stop_bots w user_tokens keys s).2 = trace s ++ tr
      ∧ Forall loop_event tr
      ∧ started tr = []
      ∧ (keyed (bots s) →
         NoDup (stopped tr) ∧ ∀ k, k ∈ stopped tr → k ∈ keys).
Proof.
  induction keys as [| k0 keys IH]; intros s Hnodup Hheld.
  { exists []. rewrite app_nil_r. split_and!; try done; constructor. }
  apply NoDup_cons in Hnodup as [Hfresh Hnodup].
  destruct (Hheld k0) as [bot0 Hbot0]; [set_solver |].
  rewrite (stop_bots_cons w user_tokens k0 keys s bot0 Hbot0).
  destruct (decide (stale user_tokens k0 bot0)); cbn zeta.
  - destruct (thread_terminates w bot0).
    + destruct (IH {| bots := delete k0 (bots s);
                      trace := trace s ++ stop_events w k0 bot0;
                      now := now s |} Hnodup)
        as (tr & Htrace & Hloop & Hnostart & Honce).
      { intros k Hk. cbn. rewrite lookup_delete_ne by set_solver.
        apply Hheld. set_solver. }
      exists (stop_events w k0 bot0 ++ tr). split_and!.
      * rewrite Htrace. cbn [trace]. by rewrite app_assoc.
      * apply Forall_app. split; [apply loop_event_stop_events | done].
      * by rewrite started_app, started_stop_events, Hnostart.
      * intros Hkeyed. pose proof (Hkeyed k0 bot0 Hbot0) as Hk0.
        destruct Honce as [Honce Hin].
        { intros k bot Hbot. cbn in Hbot.
          apply lookup_delete_Some in Hbot as [_ Hbot]. by apply Hkeyed. }
        rewrite stopped_app, stopped_stop_events, Hk0. cbn. split.
        -- apply NoDup_cons. split; [| done]. intros Hk. by apply Hin in Hk.
        -- intros k [-> | Hk]%elem_of_cons; [by left |]. right. by apply Hin.
    + exists (stop_events w k0 bot0). split_and!; try done.
      * apply loop_event_stop_events.
      * apply started_stop_events.
      * intros Hkeyed. rewrite stopped_stop_events, (Hkeyed k0 bot0 Hbot0).
        split; [apply NoDup_singleton |].
        intros k ->%list_elem_of_singleton. by left.
  - destruct (IH s Hnodup) as (tr & Htrace & Hloop & Hnostart & Honce).
    { intros k Hk. apply Hheld. set_solver. }
    exists tr. split_and!; try done. intros Hkeyed.
    destruct (Honce Hkeyed) as [? Hin]. split; [done |].
    intros k Hk. right. by apply Hin.
Qed.

(** The events of the second loop: only calls of the loop, and no tenant
    started twice. *)
Lemma start_bots_events items :
  ∀ s,
    ∃ tr,
      trace (start_bots items s).2 = trace s ++ tr
      ∧ Forall loop_event tr
      ∧ NoDup (started tr).*1
      ∧ ∀ k t, (k, t) ∈ started tr → bots s !! k = None.
Proof.
  induction items as [| [k0 t0] items IH]; intros s.
  { exists []. rewrite app_nil_r. split_and!; try done; try constructor.
    by intros k t ?%elem_of_nil. }
  rewrite start_bots_cons.
  destruct (decide (bots s !! k0 = None)) as [Hnone | Hsome]; [| apply IH].
  destruct (IH {| bots := <[k0 := BotThread_init t0 k0]> (bots s);
                  trace := trace s ++ [logger_info (starting_bot k0);
                                       thread_start k0 t0];
                  now := now s |})
    as (tr & Htrace & Hloop & Honce & Hin).
  cbn [bots trace] in Htrace, Hin.
  exists ([logger_info (starting_bot k0); thread_start k0 t0] ++ tr).
  split_and!.
  - rewrite Htrace. by rewrite <- app_assoc.
  - apply Forall_app. split; [by repeat constructor | done].
  - rewrite started_app. cbn. apply NoDup_cons. split; [| done].
    intros [[k t] [Hk Hkt]]%list_elem_of_fmap. cbn in Hk. subst k.
    apply Hin in Hkt. by rewrite lookup_insert_eq in Hkt.
  - intros k t. rewrite started_app. cbn.
    intros [[= -> ->] | Hkt]%elem_of_cons; [done |].
    apply Hin in Hkt. apply lookup_insert_None in Hkt. tauto.
Qed.


Lemma loop_event_not_session e : loop_event e → ¬ session_event e.
Proof. intros Hloop [-> | ->]; done. Qed.

(** The events of a cycle: the session is opened, then come the calls of
    the first loop; if that loop returns, the calls of the second loop
    follow and the session is closed. *)
Lemma update_bots_events w db s :
  ∃ tr_stop,
    Forall loop_event tr_stop
    ∧ started tr_stop = []
    ∧ (keyed (bots s) → NoDup (stopped tr_stop))
    ∧ match (update_bots w db s).1 with
      | Ret _ =>
          ∃ tr_start,
            trace (update_bots w db s).2
            = trace s ++ SessionLocal :: tr_stop ++ tr_start ++ [db_close]
            ∧ Forall loop_event tr_start
            ∧ NoDup (started tr_start).*1
      | Hang => trace (update_bots w db s).2 = trace s ++ SessionLocal :: tr_stop
      | Exc _ => False
      end.
Proof.
  rewrite update_bots_eq.
  destruct (stop_bots_events w (desired db) (map_to_list (bots s)).*1
              (logged SessionLocal s)) as (tr1 & Htr1 & Hloop1 & Hnostart & Honce).
  { apply NoDup_fst_map_to_list. }
  { intros k Hk. by apply elem_of_keys. }
  destruct (stop_bots_spec w (desired db) (map_to_list (bots s)).*1
              (logged SessionLocal s)) as (r & mid & tr & Hstop & _ & _ & _ & _ & _ & Hres).
  { apply NoDup_fst_map_to_list. }
  { intros k Hk. by apply elem_of_keys. }
  rewrite Hstop in Htr1 |- *. cbn [snd logged trace] in Htr1.
  exists tr1. split; [done |]. split; [done |].
  split; [intros Hkeyed; by apply Honce |].
  destruct r as [[] | e |]; [| done |].
  - destruct (start_bots_events (map_to_list (desired db)) mid)
      as (tr2 & Htr2 & Hloop2 & Honce2 & _).
    destruct (start_bots_spec (map_to_list (desired db)) mid)
      as (s' & tr' & Hstart & _).
    rewrite Hstart in Htr2 |- *. cbn [fst snd logged trace] in *.
    exists tr2. split; [| done].
    by rewrite Htr2, Htr1, <- !app_assoc.
  - cbn [fst snd]. by rewrite Htr1, <- app_assoc.
Qed.

(** The events of a cycle that has returned, split at the two loops. *)
Lemma returned_cycle_events w db s s' :
  update_bots w db s = (Ret tt, s') →
  ∃ tr_stop tr_start,
    events_since s s' = SessionLocal :: tr_stop ++ tr_start ++ [db_close]
    ∧ started tr_stop = []
    ∧ stopped tr_start = []
    ∧ NoDup (started tr_start).*1
    ∧ (∀ k t, (k, t) ∈ started tr_start ↔
         kept (desired db) (bots s) k = None ∧ desired db !! k = Some t)
    ∧ (keyed (bots s) →
       NoDup (stopped tr_stop)
       ∧ ∀ k, k ∈ stopped tr_stop ↔
           ∃ bot, bots s !! k = Some bot ∧ stale (desired db) k bot).
Proof.
  intros Hret.
  destruct (update_bots_returned w db s s' Hret)
    as (_ & mid & tr_stop & tr_start & Hres).
  destruct Hres as (Hstop & (s'' & Hstart & ->) & Hmid & Htrace & Hnostart
                    & Hnostop & Hall & Hstops & Hkept & Hstarts & _).
  exists tr_stop, tr_start.
  destruct (stop_bots_events w (desired db) (map_to_list (bots s)).*1
              (logged SessionLocal s)) as (tr1 & Htr1 & _ & _ & Honce1).
  { apply NoDup_fst_map_to_list. }
  { intros k Hk. by apply elem_of_keys. }
  rewrite Hstop in Htr1. cbn [snd logged trace] in Htr1.
  assert (tr1 = tr_stop) as ->.
  { rewrite Hmid in Htr1.
    replace (trace s ++ SessionLocal :: tr_stop)
      with ((trace s ++ [SessionLocal]) ++ tr_stop) in Htr1
      by (by rewrite <- app_assoc).
    by apply app_inv_head in Htr1. }
  destruct (start_bots_events (map_to_list (desired db)) mid)
    as (tr2 & Htr2 & _ & Honce2 & _).
  rewrite Hstart in Htr2. cbn [snd] in Htr2.
  assert (tr2 = tr_start) as ->.
  { cbn [logged trace] in Htrace. rewrite Htr2 in Htrace.
    rewrite app_assoc in Htrace. apply app_inv_tail in Htrace.
    by apply app_inv_head in Htrace. }
  split_and!; try done.
  - unfold events_since. cbn [logged trace].
    rewrite Htr2, Hmid, <- !app_assoc. cbn. by rewrite drop_app_length.
  - intros k t. by rewrite elem_of_started, Hstarts, Hkept.
  - intros Hkeyed. split; [by apply Honce1 |].
    intros k. rewrite elem_of_stopped. split.
    + intros [t Hin]. destruct (Hstops k t Hin) as (k' & bot & Hbot & ? & -> & _).
      exists bot. by rewrite (Hkeyed k' bot Hbot).
    + intros (bot & Hbot & Hstale). exists (token bot).
      rewrite <- (Hkeyed k bot Hbot). by apply (Hall k bot).
Qed.

(** X9: in a cycle that returns, [stop] is called once on each worker
    whose tenant is gone from the desired state or is there with another
    token, and on no other worker. *)
Theorem each_stale_worker_is_stopped_once w db s s' :
  keyed (bots s) →
  update_bots w db s = (Ret tt, s') →
  NoDup (stopped (events_since s s'))
  ∧ ∀ k, k ∈ stopped (events_since s s') ↔
      ∃ bot, bots s !! k = Some bot ∧ desired db !! k ≠ Some (token bot).
Proof.
  intros Hkeyed Hret.
  destruct (returned_cycle_events w db s s' Hret)
    as (tr_stop & tr_start & -> & _ & Hnostop & _ & _ & Hstops).
  destruct (Hstops Hkeyed) as [Honce Hiff].
  replace (stopped (SessionLocal :: tr_stop ++ tr_start ++ [db_close]))
    with (stopped tr_stop); [done |].
  cbn. rewrite !stopped_app, Hnostop. cbn. by rewrite app_nil_r.
Qed.

(** X10: in a cycle that returns, a worker is started once for each
    desired tenant that has no worker holding its desired token, with that
    token, and for no other tenant. *)
Theorem each_missing_tenant_is_started_once w db s s' :
  update_bots w db s = (Ret tt, s') →
  NoDup (started (events_since s s')).*1
  ∧ ∀ k t, (k, t) ∈ started (events_since s s') ↔
      desired db !! k = Some t
      ∧ ∀ bot, bots s !! k = Some bot → token bot ≠ t.
Proof.
  intros Hret.
  destruct (returned_cycle_events w db s s' Hret)
    as (tr_stop & tr_start & -> & Hnostart & _ & Honce & Hstarts & _).
  replace (started (SessionLocal :: tr_stop ++ tr_start ++ [db_close]))
    with (started tr_start).
  2: { cbn. rewrite !started_app, Hnostart. cbn. by rewrite app_nil_r. }
  split; [done |]. intros k t. rewrite Hstarts. unfold kept.
  destruct (bots s !! k) as [bot |]; simpl.
  - destruct (decide (stale (desired db) k bot)) as [Hstale | Hkept];
      unfold stale in *.
    + split.
      * intros [_ Hd]. split; [done |]. intros ? [= <-] <-. by apply Hstale.
      * by intros [Hd _].
    + split; [by intros [? _] |]. intros [Hd Hne]. exfalso. apply Hkept.
      intros Heq. rewrite Hd in Heq. injection Heq as ->. by apply (Hne bot).
  - split; [intros [_ ?]; split; [done | by intros ? ?] | intros [? _]; done].
Qed.

(** X11: a cycle opens one database session, first of all.  When the cycle
    returns it has closed the session, last of all, and nothing in between
    opens or closes a session; when the cycle never returns, the session
    is never closed. *)
Theorem cycle_session w db s :
  ∃ tr,
    trace (update_bots w db s).2 = trace s ++ SessionLocal :: tr
    ∧ match (update_bots w db s).1 with
      | Ret _ =>
          ∃ tr', tr = tr' ++ [db_close] ∧ Forall (λ e, ¬ session_event e) tr'
      | Hang => Forall (λ e, ¬ session_event e) tr
      | Exc _ => False
      end.
Proof.
  destruct (update_bots_events w db s) as (tr_stop & Hloop & _ & _ & Hres).
  assert (Hquiet : ∀ tr, Forall loop_event tr → Forall (λ e, ¬ session_event e) tr).
  { intros tr Htr. eapply Forall_impl; [exact Htr |].
    intros e. apply loop_event_not_session. }
  destruct ((update_bots w db s).1) as [[] | e |]; [| done |].
  - destruct Hres as (tr_start & Htrace & Hloop' & _).
    exists (tr_stop ++ tr_start ++ [db_close]). split; [done |].
    exists (tr_stop ++ tr_start). split; [by rewrite <- app_assoc |].
    apply Hquiet, Forall_app. done.
  - exists tr_stop. split; [done |]. by apply Hquiet.
Qed.

(** X12: with user ids that are unique, the desired state holds exactly
    the users whose [tg_bot_token] is neither NULL nor empty, each with its
    token; a user whose token is NULL or empty is not desired. *)
Theorem desired_is_the_users_with_a_token db :
  NoDup (User.id <$> db) →
  (∀ k t, desired db !! k = Some t ↔
     ∃ u, u ∈ db ∧ User.id u = k ∧ User.tg_bot_token u = Some t ∧ t ≠ "")
  ∧ (∀ u, u ∈ db →
       User.tg_bot_token u = None ∨ User.tg_bot_token u = Some "" →
       desired db !! User.id u = None).
Proof.
  intros Hnodup. split; [intros k t; by apply desired_lookup |].
  intros u Hu Hempty.
  destruct (desired db !! User.id u) as [t |] eqn:Hd; [| done].
  apply desired_lookup in Hd as (u' & Hu' & Hid & Htok & Hne); [| done].
  assert (u' = u) as ->.
  { apply list_elem_of_lookup in Hu as [i Hi], Hu' as [j Hj].
    assert (i = j) as ->; [| congruence].
    eapply NoDup_lookup; [exact Hnodup | |].
    - by rewrite list_lookup_fmap, Hi.
    - rewrite list_lookup_fmap, Hj. cbn. by rewrite Hid. }
  destruct Hempty as [Hnone | Hnone]; congruence.
Qed.

(** A cycle that never returns has opened the session and is in its first
    loop: it has started nothing and put no clock mark. *)
Lemma hung_cycle_events w db s s' :
  update_bots w db s = (Hang, s') →
  now s' = now s
  ∧ ∃ tr, trace s' = trace s ++ SessionLocal :: tr ∧ started tr = []
          ∧ unmarked tr.
Proof.
  intros Hhang.
  destruct (update_bots_spec w db s) as (r & s0 & tr0 & Hrun & Hnow & _).
  rewrite Hhang in Hrun. injection Hrun as <- <-. split; [done |].
  destruct (update_bots_events w db s) as (tr & _ & Hnostart & _ & Hres).
  destruct (update_bots_unmarked w db s) as (tr' & Htr' & Hq1 & Hq2).
  rewrite Hhang in Hres, Htr'. cbn [fst snd] in Hres, Htr'.
  exists tr. split; [done |]. split; [done |].
  rewrite Hres in Htr'. apply app_inv_head in Htr'. subst tr'.
  cbn in Hq1, Hq2. done.
Qed.

(** X13: one worker that has to be stopped and whose thread never finishes
    stops the supervisor: the loop of [run] hangs in that cycle, however
    many rounds it is given; the cycle is not ended, no later cycle begins,
    and no worker is started, for any tenant. *)
Theorem stuck_join_stops_the_supervisor n env i s k bot :
  bots s !! k = Some bot →
  stale (desired (cycle_db (env i))) k bot →
  thread_terminates (cycle_world (env i)) bot = false →
  ∃ s',
    BotManager_run (S n) env i s = (Hang, s')
    ∧ cycle_starts (events_since s s') = [now s]
    ∧ cycle_stops (events_since s s') = []
    ∧ started (events_since s s') = [].
Proof.
  intros Hbot Hstale Hterm. rewrite BotManager_run_S.
  set (s0 := logged (cycle_begins (now s)) s).
  destruct (update_bots (cycle_world (env i)) (cycle_db (env i)) s0)
    as [r s1] eqn:Hcycle.
  destruct r as [[] | e |].
  - assert (Hall : thread_terminates (cycle_world (env i)) bot = true).
    { eapply (proj1 (update_bots_returns_iff _ _ s0)); eauto. }
    congruence.
  - exfalso.
    apply (update_bots_never_raises_at (cycle_world (env i))
             (cycle_db (env i)) s0 e).
    by rewrite Hcycle.
  - exists s1. split; [done |].
    destruct (hung_cycle_events _ _ _ _ Hcycle)
      as (_ & tr & Htrace & Hnostart & Hq1 & Hq2).
    unfold events_since. rewrite Htrace. subst s0. cbn [logged trace].
    rewrite <- app_assoc, drop_app_length.
    change ([cycle_begins (now s)] ++ SessionLocal :: tr)
      with ([cycle_begins (now s); SessionLocal] ++ tr).
    by rewrite cycle_starts_app, cycle_stops_app, started_app, Hq1, Hq2, Hnostart.
Qed.

(** X14: the first cycle after [__init__] never blocks: from the empty
    registry it returns in every world, stops nothing, and starts a fresh
    worker for every desired tenant and for no one else. *)
Theorem first_cycle_starts_the_fleet w db t :
  ∃ s',
    update_bots w db (BotManager_init t) = (Ret tt, s')
    ∧ (∀ k, bots s' !! k = (λ tok, BotThread_init tok k) <$> desired db !! k)
    ∧ stopped (trace s') = []
    ∧ ∀ k tok, (k, tok) ∈ started (trace s') ↔ desired db !! k = Some tok.
Proof.
  destruct (proj2 (update_bots_returns_iff w db (BotManager_init t)))
    as [s' Hret]; [by intros k bot ? |].
  exists s'. split; [done |]. split.
  { intros k. rewrite (update_bots_registry w db _ s' Hret). unfold reconciled.
    cbn. rewrite lookup_empty. by destruct (desired db !! k). }
  destruct (returned_cycle_events w db _ s' Hret)
    as (tr_stop & tr_start & Hsince & Hnostart & Hnostop & _ & Hstarts & Hstops).
  unfold events_since in Hsince. cbn [BotManager_init trace length] in Hsince.
  rewrite drop_0 in Hsince. rewrite Hsince. split.
  - destruct Hstops as [_ Hstops]; [by intros k bot ? |].
    cbn. rewrite !stopped_app, Hnostop. cbn. rewrite app_nil_r.
    apply elem_of_nil_inv. intros k Hk. apply Hstops in Hk as (bot & Hbot & _).
    done.
  - intros k tok. cbn. rewrite !started_app, Hnostart. cbn. rewrite app_nil_r.
    rewrite Hstarts. unfold kept. cbn. rewrite lookup_empty. cbn. tauto.
Qed.

(** ** [main.py]: [ask_question] *)

(** [ask_question], by the prompt it finds. *)
Lemma ask_question_cases net request db tr0 :
  match asked_prompt db request with
  | Some system_prompt =>
      ∃ answer_text tr,
        get_yandex_gpt_response net (AskRequest.prompt request) system_prompt
          (tr0 ++ [SessionLocal])
        = (Ret answer_text, (tr0 ++ [SessionLocal]) ++ tr)
        ∧ ask_question net request db tr0
          = (Ret answer_text, tr0 ++ SessionLocal :: tr ++ [db_close])
  | None =>
      ask_question net request db tr0
      = (Ret dont_know, tr0 ++ [SessionLocal; db_close])
  end.
Proof.
  assert (Hdefault :
    (emit SessionLocal ;;; try_finally (ret dont_know) (emit db_close)) tr0
    = (Ret dont_know, tr0 ++ [SessionLocal; db_close])).
  { run_m. by rewrite <- app_assoc. }
  unfold asked_prompt, stored_prompt, ask_question.
  destruct (AskRequest.user_id request) as [user_id |]; simpl; [| done].
  case_bool_decide; [done |].
  destruct (query_first db user_id) as [user |]; simpl; [| done].
  destruct (User.system_prompt user) as [system_prompt |]; simpl; [| done].
  case_bool_decide; [done |].
  destruct (get_yandex_gpt_response_returns net (AskRequest.prompt request)
              system_prompt (tr0 ++ [SessionLocal]))
    as (answer_text & tr & Hrun & _).
  exists answer_text, tr. split; [done |].
  unfold bind at 1, emit at 1, modify at 1, try_finally.
  rewrite Hrun. run_m. by rewrite <- !app_assoc.
Qed.


(** X16: the bot and [/ask/] treat an empty system prompt differently.
    For a text message of a tenant whose id is not 0, [handle_message] and
    [ask_question] make the same completion calls unless the stored prompt
    is the empty string: then the bot calls the model with the empty
    prompt and [/ask/] answers the fixed text without a call. *)
Theorem empty_prompt_divides_bot_and_ask net db self update user_message :
  message_text update = Some user_message →
  user_id self ≠ 0 →
  (completion_calls (handle_message net db self update []).2
   = completion_calls
       (ask_question net (AskRequest.mk user_message (Some (user_id self)))
          db []).2
   ↔ stored_prompt db (user_id self) ≠ Some "")
  ∧ (stored_prompt db (user_id self) = Some "" →
     completion_calls (handle_message net db self update []).2
     = [(user_message, "")]
     ∧ ask_question net (AskRequest.mk user_message (Some (user_id self)))
         db []
       = (Ret dont_know, [SessionLocal; db_close])).
Proof.
  intros Htext Hid.
  set (request := AskRequest.mk user_message (Some (user_id self))).
  destruct (handle_message_text net db self update user_message [] Htext)
    as (tr & Hrun & Hcase).
  pose proof (ask_question_cases net request db []) as Hask.
  assert (Hasked : asked_prompt db request
                   = match stored_prompt db (user_id self) with
                     | Some system_prompt =>
                         if bool_decide (system_prompt = "") then None
                         else Some system_prompt
                     | None => None
                     end).
  { unfold asked_prompt, request. cbn. rewrite bool_decide_eq_false_2 by done.
    by destruct (stored_prompt db (user_id self)). }
  rewrite Hasked in Hask. clear Hasked.
  rewrite Hrun. cbn [snd app].
  destruct (stored_prompt db (user_id self)) as [system_prompt |].
  - destruct Hcase as (answer_text & _ & Hcalls & _).
    case_bool_decide as Hempty.
    + subst system_prompt. rewrite Hask. cbn [snd app]. rewrite Hcalls.
      split; [| done]. split; [discriminate | by intros []].
    + destruct Hask as (answer' & tr' & Hwrap & Hask). rewrite Hask.
      unfold request in Hwrap. cbn [AskRequest.prompt] in Hwrap.
      destruct (get_yandex_gpt_response_returns net user_message system_prompt
                  ([] ++ [SessionLocal]))
        as (a & t & Hrun' & _ & Hcalls' & _).
      rewrite Hwrap in Hrun'. injection Hrun' as <- Htr. subst t.
      split; [| by intros [= ->]].
      split; [congruence |]. intros _. cbn [snd app].
      change (SessionLocal :: tr' ++ [db_close])
        with ([SessionLocal] ++ tr' ++ [db_close]).
      by rewrite !completion_calls_app, Hcalls, Hcalls'.
  - rewrite Hask. subst tr. split; [| done]. split; done.
Qed.

(** ** [main.py]: [update_profile], [block_user], [login] *)

Lemma commit_ids db user : User.id <$> commit db user = User.id <$> db.
Proof.
  unfold commit. rewrite <- list_fmap_compose. apply list_fmap_ext.
  intros i u _. cbn. by case_bool_decide.
Qed.

(** In a table with unique ids, a commit changes the one row of that id. *)
Lemma commit_row db u u' :
  NoDup (User.id <$> db) →
  u ∈ db →
  User.id u' = User.id u →
  commit db u' = (λ v, if decide (v = u) then u' else v) <$> db.
Proof.
  intros Hnodup Hu Hid. unfold commit. apply list_fmap_ext.
  intros i v Hv. rewrite Hid.
  destruct (decide (v = u)) as [-> | Hne].
  - by rewrite bool_decide_eq_true_2.
  - rewrite bool_decide_eq_false_2; [done |]. intros Hsame. apply Hne.
    apply list_elem_of_lookup in Hu as [j Hj].
    assert (i = j) as ->; [| congruence].
    eapply NoDup_lookup; [exact Hnodup | |].
    + rewrite list_lookup_fmap, Hv. cbn. by rewrite Hsame.
    + by rewrite list_lookup_fmap, Hj.
Qed.

Lemma elem_of_commit db u u' v :
  NoDup (User.id <$> db) →
  u ∈ db →
  User.id u' = User.id u →
  v ∈ commit db u' ↔ v = u' ∨ (v ∈ db ∧ User.id v ≠ User.id u).
Proof.
  intros Hnodup Hu Hid. rewrite (commit_row db u u') by done.
  rewrite list_elem_of_fmap. split.
  - intros [x [-> Hx]]. destruct (decide (x = u)) as [-> | Hne]; [by left |].
    right. split; [done |]. intros Hsame. apply Hne.
    apply list_elem_of_lookup in Hu as [j Hj], Hx as [i Hi].
    assert (i = j) as ->; [| congruence].
    eapply NoDup_lookup; [exact Hnodup | |].
    + rewrite list_lookup_fmap, Hi. cbn. by rewrite Hsame.
    + by rewrite list_lookup_fmap, Hj.
  - intros [-> | [Hv Hne]].
    + exists u. by rewrite decide_True.
    + exists v. rewrite decide_False; [done |]. by intros ->.
Qed.

(** The desired state after a commit to one row. *)
Lemma desired_commit db u u' :
  NoDup (User.id <$> db) →
  u ∈ db →
  User.id u' = User.id u →
  desired (commit db u')
  = match token_of u' with
    | Some t => <[User.id u := t]> (desired db)
    | None => delete (User.id u) (desired db)
    end.
Proof.
  intros Hnodup Hu Hid. apply map_eq. intros k. apply option_eq. intros t.
  rewrite desired_lookup by (by rewrite commit_ids).
  assert (Hown : token_of u' = Some t ↔ User.tg_bot_token u' = Some t ∧ t ≠ "").
  { unfold token_of. destruct (User.tg_bot_token u') as [t' |].
    - case_bool_decide as Hempty.
      + split; [done |]. intros [[= ->] Hne]. done.
      + split; [intros [= ->]; done | by intros [? _]].
    - split; [done | by intros [? _]]. }
  assert (Hrest : ∀ k, k ≠ User.id u →
    desired db !! k = Some t ↔
    ∃ v, v ∈ commit db u' ∧ User.id v = k ∧ User.tg_bot_token v = Some t ∧ t ≠ "").
  { intros k' Hk'. rewrite desired_lookup by done. split.
    - intros (v & Hv & <- & ? & ?). exists v. split_and!; try done.
      apply (elem_of_commit db u u'); try done. by right.
    - intros (v & Hv & <- & ? & ?).
      apply (elem_of_commit db u u') in Hv as [-> | [Hv _]]; try done.
      exists v. done. }
  destruct (decide (k = User.id u)) as [-> | Hk].
  - transitivity (token_of u' = Some t).
    + rewrite Hown. split.
      * intros (v & Hv & Hidv & ? & ?).
        apply (elem_of_commit db u u') in Hv as [-> | [_ Hne]]; done.
      * intros [? ?]. exists u'. split_and!; try done.
        apply (elem_of_commit db u u'); try done. by left.
    + destruct (token_of u') as [t' |].
      * by rewrite lookup_insert_eq.
      * by rewrite lookup_delete_eq.
  - rewrite <- (Hrest k Hk).
    destruct (token_of u'); by rewrite ?lookup_insert_ne, ?lookup_delete_ne.
Qed.

Lemma query_first_commit db u' k :
  query_first (commit db u') k
  = if decide (k = User.id u')
    then (if decide (User.id u' ∈ User.id <$> db) then Some u' else None)
    else query_first db k.
Proof.
  unfold query_first, commit, database in *.
  induction db as [| v db IH]; [by destruct (decide (k = User.id u')) |].
  cbn [fmap list_fmap]. destruct (decide (k = User.id u')) as [-> | Hk].
  - case_bool_decide as Hv.
    + rewrite filter_cons_True by done. cbn.
      rewrite decide_True; [done |]. rewrite <- Hv. by left.
    + rewrite filter_cons_False by done. rewrite IH.
      destruct (decide (User.id u' ∈ User.id <$> db)) as [Hin | Hout].
      * rewrite decide_True; [done |]. by right.
      * rewrite decide_False; [done |].
        intros [? | ?]%elem_of_cons; [by apply Hv | done].
  - case_bool_decide as Hv.
    + rewrite !filter_cons_False by congruence. done.
    + destruct (decide (User.id v = k)) as [Hvk | Hvk].
      * by rewrite !filter_cons_True.
      * by rewrite !filter_cons_False.
Qed.

Lemma profile_applied_fields profile u :
  User.id (profile_applied profile u) = User.id u
  ∧ User.username (profile_applied profile u) = User.username u
  ∧ User.password_hash (profile_applied profile u) = User.password_hash u
  ∧ User.is_active (profile_applied profile u) = User.is_active u
  ∧ User.is_admin (profile_applied profile u) = User.is_admin u
  ∧ User.tg_bot_token (profile_applied profile u)
    = UserProfile.tg_bot_token profile ∪ User.tg_bot_token u
  ∧ User.vk_token (profile_applied profile u)
    = UserProfile.vk_token profile ∪ User.vk_token u
  ∧ User.system_prompt (profile_applied profile u)
    = UserProfile.system_prompt profile ∪ User.system_prompt u.
Proof.
  unfold profile_applied.
  by destruct profile as [[] [] []], u as [? ? ? ? ? [] [] []].
Qed.

(** X17: [update_profile] assigns the fields of the profile that are not
    [None] and leaves the others, so no field that is set can be unset
    through it; the id, the username, the password hash and the two flags
    stay; [get_profile] then shows the result; and sending the same profile
    again changes nothing. *)
Theorem update_profile_sets_what_is_given profile u :
  get_profile (profile_applied profile u)
  = (User.username u,
     UserProfile.tg_bot_token profile ∪ User.tg_bot_token u,
     UserProfile.vk_token profile ∪ User.vk_token u,
     UserProfile.system_prompt profile ∪ User.system_prompt u)
  ∧ (User.id (profile_applied profile u),
     User.password_hash (profile_applied profile u),
     User.is_active (profile_applied profile u),
     User.is_admin (profile_applied profile u))
    = (User.id u, User.password_hash u, User.is_active u, User.is_admin u)
  ∧ (is_Some (User.tg_bot_token u) →
     is_Some (User.tg_bot_token (profile_applied profile u)))
  ∧ (is_Some (User.vk_token u) →
     is_Some (User.vk_token (profile_applied profile u)))
  ∧ (is_Some (User.system_prompt u) →
     is_Some (User.system_prompt (profile_applied profile u)))
  ∧ profile_applied profile (profile_applied profile u)
    = profile_applied profile u.
Proof.
  unfold get_profile, profile_applied.
  destruct profile as [[] [] []], u as [? ? ? ? ? [] [] []]; cbn;
    split_and!; try done; by intros [? [=]].
Qed.

(** X18: in a table with unique ids, [update_profile] changes the caller's
    row and no other row. *)
Theorem update_profile_touches_one_row profile u db :
  NoDup (User.id <$> db) →
  u ∈ db →
  (update_profile profile u db).1
  = (λ v, if decide (v = u) then profile_applied profile u else v) <$> db.
Proof.
  intros Hnodup Hu. apply commit_row; [done | done |].
  apply profile_applied_fields.
Qed.

(** X19: what a new token does to the desired state, in a table with
    unique ids: a token that is not empty puts the caller in with that
    token, the empty token takes the caller out, and a profile without a
    token leaves the desired state as it is. *)
Theorem update_profile_moves_the_desired_state profile u db :
  NoDup (User.id <$> db) →
  u ∈ db →
  desired (update_profile profile u db).1
  = match UserProfile.tg_bot_token profile with
    | None => desired db
    | Some t =>
        if bool_decide (t = "") then delete (User.id u) (desired db)
        else <[User.id u := t]> (desired db)
    end.
Proof.
  intros Hnodup Hu. unfold update_profile. cbn [fst].
  rewrite (desired_commit db u) by (done || apply profile_applied_fields).
  destruct (profile_applied_fields profile u) as (_ & _ & _ & _ & _ & Htok & _).
  unfold token_of. rewrite Htok.
  destruct (UserProfile.tg_bot_token profile) as [t |].
  { replace (Some t ∪ User.tg_bot_token u) with (Some t)
      by (by destruct (User.tg_bot_token u)).
    by case_bool_decide. }
  replace (None ∪ User.tg_bot_token u) with (User.tg_bot_token u)
    by (by destruct (User.tg_bot_token u)).
  assert (Hold : desired db !! User.id u = token_of u).
  { apply option_eq. intros t. rewrite desired_lookup by done.
    unfold token_of. split.
    - intros (v & Hv & Hid & Htv & Hne).
      assert (v = u) as ->.
      { apply list_elem_of_lookup in Hu as [j Hj], Hv as [i Hi].
        assert (i = j) as ->; [| congruence].
        eapply NoDup_lookup; [exact Hnodup | |].
        + rewrite list_lookup_fmap, Hi. cbn. by rewrite Hid.
        + by rewrite list_lookup_fmap, Hj. }
      rewrite Htv. by rewrite bool_decide_eq_false_2.
    - destruct (User.tg_bot_token u) as [t' |] eqn:Htu; [| done].
      case_bool_decide; [done |]. intros [= ->]. exists u. done. }
  unfold token_of in Hold.
  destruct (User.tg_bot_token u) as [t |].
  - case_bool_decide.
    + by apply delete_id.
    + by apply insert_id.
  - by apply delete_id.
Qed.

(** X20: a token set through [update_profile] reaches the fleet in one
    cycle.  In a table with unique ids, after the caller has set a token
    that is not empty, a cycle that returns leaves a worker for the caller
    holding that token; after the caller has set the empty token, it leaves
    no worker for the caller. *)
Theorem new_token_reaches_the_fleet w profile u db t s s' :
  NoDup (User.id <$> db) →
  u ∈ db →
  UserProfile.tg_bot_token profile = Some t →
  update_bots w (update_profile profile u db).1 s = (Ret tt, s') →
  if bool_decide (t = "") then bots s' !! User.id u = None
  else ∃ bot, bots s' !! User.id u = Some bot ∧ token bot = t.
Proof.
  intros Hnodup Hu Htok Hret.
  destruct (registry_is_desired w _ s s' Hret) as [Hdom Htokens].
  assert (Hdesired : desired (update_profile profile u db).1
                     = if bool_decide (t = "")
                       then delete (User.id u) (desired db)
                       else <[User.id u := t]> (desired db)).
  { unfold update_profile. cbn [fst].
    rewrite (desired_commit db u) by (done || apply profile_applied_fields).
    destruct (profile_applied_fields profile u) as (_ & _ & _ & _ & _ & Hfield & _).
    unfold token_of. rewrite Hfield, Htok.
    replace (Some t ∪ User.tg_bot_token u) with (Some t)
      by (by destruct (User.tg_bot_token u)).
    by case_bool_decide. }
  rewrite Hdesired in Hdom, Htokens. case_bool_decide.
  - apply not_elem_of_dom. rewrite Hdom, dom_delete.
    intros [_ Hout]%elem_of_difference. apply Hout. by apply elem_of_singleton.
  - assert (Hin : User.id u ∈ dom (bots s')).
    { rewrite Hdom, dom_insert. apply elem_of_union. left.
      by apply elem_of_singleton. }
    apply elem_of_dom in Hin as [bot Hbot]. exists bot. split; [done |].
    apply Htokens in Hbot. rewrite lookup_insert_eq in Hbot. congruence.
Qed.

(** X21: a system prompt set through [update_profile] is used for the very
    next message: [handle_message] reads the table each time, so after the
    caller has set a prompt, a text message to the caller's worker makes
    one completion call, with that prompt. *)
Theorem new_prompt_is_used_at_once net profile u db system_prompt self update
    user_message tr0 :
  u ∈ db →
  UserProfile.system_prompt profile = Some system_prompt →
  user_id self = User.id u →
  message_text update = Some user_message →
  ∃ tr,
    handle_message net (update_profile profile u db).1 self update tr0
    = (Ret tt, tr0 ++ tr)
    ∧ completion_calls tr = [(user_message, system_prompt)].
Proof.
  intros Hu Hprompt Hself Htext.
  destruct (handle_message_text net (update_profile profile u db).1 self update
              user_message tr0 Htext) as (tr & Hrun & Hcase).
  exists tr. split; [done |].
  unfold stored_prompt, update_profile in Hcase. cbn [fst] in Hcase.
  rewrite query_first_commit in Hcase.
  destruct (profile_applied_fields profile u)
    as (Hid & _ & _ & _ & _ & _ & _ & Hfield).
  rewrite Hid, Hself in Hcase. rewrite decide_True in Hcase by done.
  rewrite decide_True in Hcase by (by apply list_elem_of_fmap_2).
  cbn in Hcase. rewrite Hfield, Hprompt in Hcase.
  replace (Some system_prompt ∪ User.system_prompt u) with (Some system_prompt)
    in Hcase by (by destruct (User.system_prompt u)).
  by destruct Hcase as (? & _ & ? & _).
Qed.

Lemma query_by_username_elem db username user :
  query_by_username db username = Some user →
  user ∈ db ∧ User.username user = username.
Proof.
  unfold query_by_username, database in *. intros Hhead.
  apply head_Some in Hhead as [rest Hrest].
  assert (Hin : user ∈ filter (λ u, User.username u = username) db).
  { rewrite Hrest. by left. }
  apply list_elem_of_filter in Hin. tauto.
Qed.

(** After a commit to the first row of a username, that username finds the
    committed row. *)
Lemma query_by_username_commit db username user user' :
  query_by_username db username = Some user →
  User.id user' = User.id user →
  User.username user' = username →
  query_by_username (commit db user') username = Some user'.
Proof.
  unfold query_by_username, commit, database in *. intros Hfirst Hid Hname.
  induction db as [| v db IH]; [done |]. cbn [fmap list_fmap].
  destruct (decide (User.username v = username)) as [Hv | Hv].
  - rewrite filter_cons_True in Hfirst by done. injection Hfirst as ->.
    rewrite bool_decide_eq_true_2 by done. by rewrite filter_cons_True.
  - rewrite filter_cons_False in Hfirst by done.
    case_bool_decide.
    + by rewrite filter_cons_True.
    + rewrite filter_cons_False by done. by apply IH.
Qed.

(** X22: blocking a user does not stop the user's bot.  In a table with
    unique ids, a successful [block_user] changes neither the desired state
    nor any stored system prompt, so the next cycle and the next message do
    what they would have done without it. *)
Theorem blocking_leaves_the_bot_running username admin db db' msg :
  NoDup (User.id <$> db) →
  block_user username admin db = inr (db', msg) →
  desired db' = desired db
  ∧ (∀ k, stored_prompt db' k = stored_prompt db k)
  ∧ (∀ w s, update_bots w db' s = update_bots w db s)
  ∧ (∀ net self update, handle_message net db' self update
                        = handle_message net db self update).
Proof.
  intros Hnodup Hblock. unfold block_user in Hblock.
  destruct (negb (User.is_admin admin)); [done |].
  destruct (query_by_username db username) as [user |] eqn:Huser; [| done].
  injection Hblock as <- <-.
  apply query_by_username_elem in Huser as [Huser _].
  assert (Hdesired : desired (commit db (set_is_active false user)) = desired db).
  { rewrite (desired_commit db user) by done.
    assert (Hold : desired db !! User.id user = token_of user).
    { apply option_eq. intros t. rewrite desired_lookup by done.
      unfold token_of. split.
      - intros (v & Hv & Hid & Htv & Hne).
        assert (v = user) as ->.
        { apply list_elem_of_lookup in Huser as [j Hj], Hv as [i Hi].
          assert (i = j) as ->; [| congruence].
          eapply NoDup_lookup; [exact Hnodup | |].
          + rewrite list_lookup_fmap, Hi. cbn. by rewrite Hid.
          + by rewrite list_lookup_fmap, Hj. }
        rewrite Htv. by rewrite bool_decide_eq_false_2.
      - destruct (User.tg_bot_token user) as [t' |] eqn:Htu; [| done].
        case_bool_decide; [done |]. intros [= ->]. exists user. done. }
    change (token_of (set_is_active false user)) with (token_of user).
    destruct (token_of user); [by apply insert_id | by apply delete_id]. }
  assert (Hprompts : ∀ k, stored_prompt (commit db (set_is_active false user)) k
                          = stored_prompt db k).
  { intros k. unfold stored_prompt. rewrite query_first_commit. cbn [User.id
      set_is_active].
    destruct (decide (k = User.id user)) as [-> | Hk]; [| done].
    rewrite decide_True by (by apply list_elem_of_fmap_2).
    assert (Hfirst : query_first db (User.id user) = Some user).
    { unfold query_first, database in *.
      apply list_elem_of_lookup in Huser as [j Hj].
      clear -Hnodup Hj. revert j Hj. induction db as [| v db IH]; [done |].
      intros [| j] Hj; cbn in Hj.
      - injection Hj as ->. by rewrite filter_cons_True.
      - cbn in Hnodup. apply NoDup_cons in Hnodup as [Hfresh Hnodup].
        rewrite filter_cons_False; [by apply (IH Hnodup j) |].
        intros Hsame. apply Hfresh. rewrite Hsame.
        apply list_elem_of_fmap_2. by eapply list_elem_of_lookup_2. }
    by rewrite Hfirst. }
  split; [done |]. split; [done |]. split.
  - intros w s. rewrite !update_bots_eq. by rewrite Hdesired.
  - intros net self update. unfold handle_message.
    destruct (message_text update); [| done].
    pose proof (Hprompts (user_id self)) as Hp. unfold stored_prompt in Hp.
    destruct (query_first (commit db (set_is_active false user)) (user_id self))
      as [v |], (query_first db (user_id self)) as [v' |]; cbn in Hp;
      try (by rewrite Hp); try (by rewrite <- Hp); done.
Qed.

(** X23: a blocked user is locked out at once.  After a successful
    [block_user], no password logs that username in, and
    [get_current_user] refuses every token whose subject is that
    username, also a token issued before the block. *)
Theorem blocked_user_is_locked_out auth username admin db db' msg :
  block_user username admin db = inr (db', msg) →
  (∀ password, ∃ e, login auth username password db' = inl e)
  ∧ (∀ token, jwt_decode auth token = Some (Some username) →
       get_current_user auth token db' = inl credentials_exception).
Proof.
  intros Hblock. unfold block_user in Hblock.
  destruct (negb (User.is_admin admin)); [done |].
  destruct (query_by_username db username) as [user |] eqn:Huser; [| done].
  injection Hblock as <- <-.
  assert (Hfound : query_by_username (commit db (set_is_active false user))
                     username = Some (set_is_active false user)).
  { apply (query_by_username_commit db username user); [done | done |].
    by apply query_by_username_elem in Huser as [_ ?]. }
  split.
  - intros password. unfold login. rewrite Hfound. cbn.
    destruct (verify_password auth password (User.password_hash user)); eauto.
  - intros token Htoken. unfold get_current_user. by rewrite Htoken, Hfound.
Qed.

(** X24: when decoding undoes [create_access_token], the token [login]
    returns authenticates as the user who logged in: [get_current_user]
    accepts it and returns the row of that username, which is active and
    whose password hash the password verifies against. *)
Theorem login_token_authenticates auth username password db token :
  (∀ sub, jwt_decode auth (create_access_token auth sub) = Some (Some sub)) →
  login auth username password db = inr token →
  ∃ user,
    get_current_user auth token db = inr user
    ∧ User.username user = username
    ∧ User.is_active user = true
    ∧ verify_password auth password (User.password_hash user) = true.
Proof.
  intros Hround Hlogin. unfold login in Hlogin.
  destruct (query_by_username db username) as [user |] eqn:Huser; [| done].
  destruct (verify_password auth password (User.password_hash user)) eqn:Hpw;
    [| done].
  destruct (User.is_active user) eqn:Hactive; [| done].
  injection Hlogin as <-. exists user.
  apply query_by_username_elem in Huser as Hname. destruct Hname as [_ Hname].
  unfold get_current_user. rewrite Hround, Hname, Huser, Hactive. done.
Qed.

(** ** [telegram_bot.py] *)

(** [ask_backend], by how the request goes. *)
Lemma ask_backend_cases server prompt tr0 :
  (∃ response a,
     server prompt = inr response
     ∧ ¬ 400 ≤ telegram_bot.status_code response < 600
     ∧ telegram_bot.answer response = Some a
     ∧ telegram_bot.ask_backend server prompt tr0
       = (Ret (default telegram_bot.no_answer a),
          tr0 ++ [telegram_bot.requests_post prompt]))
  ∨ (∃ e,
       telegram_bot.ask_backend server prompt tr0
       = (Ret telegram_bot.server_error,
          tr0 ++ [telegram_bot.requests_post prompt;
                  telegram_bot.logger_error e])).
Proof.
  unfold telegram_bot.ask_backend, telegram_bot.emit.
  cbv [try_except bind modify ret raise].
  destruct (server prompt) as [e | response]; cbn.
  - right. exists e. by rewrite <- app_assoc.
  - case_bool_decide; cbn.
    + right. eexists. by rewrite <- app_assoc.
    + destruct (telegram_bot.answer response) as [[a |] |] eqn:Hanswer; cbn.
      * left. exists response, (Some a). done.
      * left. exists response, None. done.
      * right. eexists. by rewrite <- app_assoc.
Qed.

(** X25: the handler of [telegram_bot.py] has no guard.  For an update
    with a message it posts once and replies once, whatever the server
    does: the server's answer, the fixed text for a body without an answer,
    or the fixed error text after a failure, which it logs.  For an update
    without a message it raises and replies nothing, where
    [BotThread.handle_message] returns. *)
Theorem single_bot_replies_or_raises server net db self update tr0 tr1 :
  match message update with
  | Some m =>
      ∃ reply log,
        telegram_bot.handle_message server update tr0
        = (Ret tt, tr0 ++ telegram_bot.requests_post (text m) :: log
                       ++ [telegram_bot.reply_text reply])
        ∧ ((log = [] ∧ ∃ response a,
              server (text m) = inr response
              ∧ telegram_bot.answer response = Some a
              ∧ reply = default telegram_bot.no_answer a)
           ∨ (reply = telegram_bot.server_error
              ∧ ∃ e, log = [telegram_bot.logger_error e]))
  | None =>
      telegram_bot.handle_message server update tr0
      = (Exc (Exception "AttributeError"), tr0)
      ∧ handle_message net db self update tr1 = (Ret tt, tr1)
  end.
Proof.
  unfold telegram_bot.handle_message, handle_message, message_text.
  destruct (message update) as [m |]; [| done].
  destruct (ask_backend_cases server (text m) tr0)
    as [(response & a & Hserver & _ & Hanswer & Hrun) | [e Hrun]].
  - exists (default telegram_bot.no_answer a), [].
    rewrite (bind_eq _ _ _ _ _ Hrun). split.
    + unfold telegram_bot.emit, modify. by rewrite <- app_assoc.
    + left. split; [done |]. by exists response, a.
  - exists telegram_bot.server_error, [telegram_bot.logger_error e].
    rewrite (bind_eq _ _ _ _ _ Hrun). split.
    + unfold telegram_bot.emit, modify. by rewrite <- !app_assoc.
    + right. split; [done |]. by exists e.
Qed.

(** X26: behind [/ask/] of [main.py] the single bot never reaches the
    model: [ask_backend] sends a prompt and no user id, so for every text
    it returns the fixed "do not know" answer of [ask_question], whatever
    the table holds and whatever the completion endpoint would say. *)
Theorem single_bot_never_reaches_the_model net db prompt tr0 :
  telegram_bot.ask_backend (served_by_main net db) (Some prompt) tr0
  = (Ret dont_know, tr0 ++ [telegram_bot.requests_post (Some prompt)]).
Proof.
  pose proof (ask_question_cases net (AskRequest.mk prompt None) db []) as Hask.
  cbn [asked_prompt AskRequest.user_id mbind option_bind] in Hask.
  destruct (ask_backend_cases (served_by_main net db) (Some prompt) tr0)
    as [(response & a & Hserver & _ & Hanswer & Hrun) | [e Hrun]].
  - rewrite Hrun. unfold served_by_main in Hserver. rewrite Hask in Hserver.
    injection Hserver as <-. cbn in Hanswer. by injection Hanswer as <-.
  - exfalso. revert Hrun.
    unfold telegram_bot.ask_backend, telegram_bot.emit, served_by_main.
    rewrite Hask. cbv [try_except bind modify ret raise]. cbn.
    rewrite bool_decide_eq_false_2 by lia. cbn. intros Hrun.
    injection Hrun as Hanswer _. discriminate Hanswer.
Qed.

(** ** The extra properties at work *)

Lemma handle_message_closes_its_session_witness :
  message_text Scenario.hello = Some "hello"
  ∧ ∃ middle answer_text,
      handle_message Scenario.answers Scenario.db1 Scenario.worker1
        Scenario.hello []
      = (Ret tt, [] ++ SessionLocal :: middle
                    ++ [reply_text answer_text; db_close])
      ∧ Forall (λ e, ¬ session_event e) middle
      ∧ replies middle = [].
Proof.
  split; [reflexivity |].
  apply (handle_message_closes_its_session Scenario.answers Scenario.db1
           Scenario.worker1 Scenario.hello "hello" []).
  reflexivity.
Defined.

Lemma each_stale_worker_is_stopped_once_witness :
  keyed (bots Scenario.s1)
  ∧ update_bots Scenario.threads_finish Scenario.db2 Scenario.s1
    = (Ret tt, (update_bots Scenario.threads_finish Scenario.db2 Scenario.s1).2)
  ∧ NoDup (stopped (events_since Scenario.s1
                      (update_bots Scenario.threads_finish Scenario.db2
                         Scenario.s1).2))
  ∧ ∀ k, k ∈ stopped (events_since Scenario.s1
                        (update_bots Scenario.threads_finish Scenario.db2
                           Scenario.s1).2) ↔
      ∃ bot, bots Scenario.s1 !! k = Some bot
             ∧ desired Scenario.db2 !! k ≠ Some (token bot).
Proof.
  assert (H1 : keyed (bots Scenario.s1)).
  { apply update_bots_keyed. intros k bot Hbot. discriminate Hbot. }
  assert (H2 : update_bots Scenario.threads_finish Scenario.db2 Scenario.s1
               = (Ret tt, (update_bots Scenario.threads_finish Scenario.db2
                             Scenario.s1).2)) by (vm_compute; reflexivity).
  split; [exact H1 |]. split; [exact H2 |].
  exact (each_stale_worker_is_stopped_once _ _ _ _ H1 H2).
Defined.

Lemma each_missing_tenant_is_started_once_witness :
  update_bots Scenario.threads_finish Scenario.db2 Scenario.s1
  = (Ret tt, (update_bots Scenario.threads_finish Scenario.db2 Scenario.s1).2)
  ∧ NoDup (started (events_since Scenario.s1
                      (update_bots Scenario.threads_finish Scenario.db2
                         Scenario.s1).2)).*1
  ∧ ∀ k t, (k, t) ∈ started (events_since Scenario.s1
                               (update_bots Scenario.threads_finish Scenario.db2
                                  Scenario.s1).2) ↔
      desired Scenario.db2 !! k = Some t
      ∧ ∀ bot, bots Scenario.s1 !! k = Some bot → token bot ≠ t.
Proof.
  assert (H : update_bots Scenario.threads_finish Scenario.db2 Scenario.s1
              = (Ret tt, (update_bots Scenario.threads_finish Scenario.db2
                            Scenario.s1).2)) by (vm_compute; reflexivity).
  split; [exact H |].
  exact (each_missing_tenant_is_started_once _ _ _ _ H).
Defined.

Lemma office_ids_are_unique : NoDup (User.id <$> Office.db).
Proof. apply (bool_decide_unpack _). vm_compute. exact I. Defined.

Lemma desired_is_the_users_with_a_token_witness :
  NoDup (User.id <$> Office.db)
  ∧ (∀ k t, desired Office.db !! k = Some t ↔
       ∃ u, u ∈ Office.db ∧ User.id u = k ∧ User.tg_bot_token u = Some t ∧ t ≠ "")
  ∧ (∀ u, u ∈ Office.db →
       User.tg_bot_token u = None ∨ User.tg_bot_token u = Some "" →
       desired Office.db !! User.id u = None).
Proof.
  split; [exact office_ids_are_unique |].
  exact (desired_is_the_users_with_a_token Office.db office_ids_are_unique).
Defined.

Lemma stuck_join_stops_the_supervisor_witness :
  bots Scenario.s1 !! 1 = Some Scenario.worker1
  ∧ stale (desired (cycle_db (Office.stuck_cycles 0))) 1 Scenario.worker1
  ∧ thread_terminates (cycle_world (Office.stuck_cycles 0)) Scenario.worker1
    = false
  ∧ ∃ s',
      BotManager_run 5 Office.stuck_cycles 0 Scenario.s1 = (Hang, s')
      ∧ cycle_starts (events_since Scenario.s1 s') = [now Scenario.s1]
      ∧ cycle_stops (events_since Scenario.s1 s') = []
      ∧ started (events_since Scenario.s1 s') = [].
Proof.
  assert (H1 : bots Scenario.s1 !! 1 = Some Scenario.worker1)
    by (vm_compute; reflexivity).
  assert (H2 : stale (desired (cycle_db (Office.stuck_cycles 0))) 1
                 Scenario.worker1) by (intros H; discriminate H).
  assert (H3 : thread_terminates (cycle_world (Office.stuck_cycles 0))
                 Scenario.worker1 = false) by reflexivity.
  split; [exact H1 |]. split; [exact H2 |]. split; [exact H3 |].
  exact (stuck_join_stops_the_supervisor 4 Office.stuck_cycles 0%nat Scenario.s1
           1 Scenario.worker1 H1 H2 H3).
Defined.

Lemma empty_prompt_divides_bot_and_ask_witness :
  message_text Scenario.hello = Some "hello"
  ∧ user_id Office.worker_of_bob ≠ 0
  ∧ stored_prompt Office.db (user_id Office.worker_of_bob) = Some ""
  ∧ completion_calls (handle_message Scenario.answers Office.db
                        Office.worker_of_bob Scenario.hello []).2
    = [("hello", "")]
  ∧ ask_question Scenario.answers
      (AskRequest.mk "hello" (Some (user_id Office.worker_of_bob))) Office.db []
    = (Ret dont_know, [SessionLocal; db_close]).
Proof.
  assert (H1 : message_text Scenario.hello = Some "hello") by reflexivity.
  assert (H2 : user_id Office.worker_of_bob ≠ 0) by discriminate.
  assert (H3 : stored_prompt Office.db (user_id Office.worker_of_bob) = Some "")
    by reflexivity.
  split; [exact H1 |]. split; [exact H2 |]. split; [exact H3 |].
  exact (proj2 (empty_prompt_divides_bot_and_ask Scenario.answers Office.db
                  Office.worker_of_bob Scenario.hello "hello" H1 H2) H3).
Defined.

Lemma bob_is_in_the_office : Office.bob ∈ Office.db.
Proof. apply (bool_decide_unpack _). vm_compute. exact I. Defined.

Lemma update_profile_touches_one_row_witness :
  NoDup (User.id <$> Office.db)
  ∧ Office.bob ∈ Office.db
  ∧ (update_profile Office.new_token Office.bob Office.db).1
    = (λ v, if decide (v = Office.bob)
            then profile_applied Office.new_token Office.bob else v)
      <$> Office.db.
Proof.
  split; [exact office_ids_are_unique |]. split; [exact bob_is_in_the_office |].
  exact (update_profile_touches_one_row Office.new_token Office.bob Office.db
           office_ids_are_unique bob_is_in_the_office).
Defined.

Lemma update_profile_moves_the_desired_state_witness :
  NoDup (User.id <$> Office.db)
  ∧ Office.bob ∈ Office.db
  ∧ desired (update_profile Office.new_token Office.bob Office.db).1
    = <[3 := "tokB"]> (desired Office.db).
Proof.
  split; [exact office_ids_are_unique |]. split; [exact bob_is_in_the_office |].
  exact (update_profile_moves_the_desired_state Office.new_token Office.bob
           Office.db office_ids_are_unique bob_is_in_the_office).
Defined.

Lemma new_token_reaches_the_fleet_witness :
  NoDup (User.id <$> Office.db)
  ∧ Office.bob ∈ Office.db
  ∧ UserProfile.tg_bot_token Office.new_token = Some "tokB"
  ∧ update_bots Scenario.threads_finish
      (update_profile Office.new_token Office.bob Office.db).1 Scenario.s0
    = (Ret tt, (update_bots Scenario.threads_finish
                  (update_profile Office.new_token Office.bob Office.db).1
                  Scenario.s0).2)
  ∧ ∃ bot,
      bots (update_bots Scenario.threads_finish
              (update_profile Office.new_token Office.bob Office.db).1
              Scenario.s0).2 !! 3 = Some bot
      ∧ token bot = "tokB".
Proof.
  assert (H3 : UserProfile.tg_bot_token Office.new_token = Some "tokB")
    by reflexivity.
  assert (H4 : update_bots Scenario.threads_finish
                 (update_profile Office.new_token Office.bob Office.db).1
                 Scenario.s0
               = (Ret tt, (update_bots Scenario.threads_finish
                             (update_profile Office.new_token Office.bob
                                Office.db).1 Scenario.s0).2))
    by (vm_compute; reflexivity).
  split; [exact office_ids_are_unique |]. split; [exact bob_is_in_the_office |].
  split; [exact H3 |]. split; [exact H4 |].
  exact (new_token_reaches_the_fleet Scenario.threads_finish Office.new_token
           Office.bob Office.db "tokB" Scenario.s0 _
           office_ids_are_unique bob_is_in_the_office H3 H4).
Defined.

Lemma new_prompt_is_used_at_once_witness :
  Office.bob ∈ Office.db
  ∧ UserProfile.system_prompt Office.new_prompt = Some "be brief"
  ∧ user_id Office.worker_of_bob = User.id Office.bob
  ∧ message_text Scenario.hello = Some "hello"
  ∧ ∃ tr,
      handle_message Scenario.answers
        (update_profile Office.new_prompt Office.bob Office.db).1
        Office.worker_of_bob Scenario.hello []
      = (Ret tt, [] ++ tr)
      ∧ completion_calls tr = [("hello", "be brief")].
Proof.
  assert (H2 : UserProfile.system_prompt Office.new_prompt = Some "be brief")
    by reflexivity.
  assert (H3 : user_id Office.worker_of_bob = User.id Office.bob)
    by reflexivity.
  assert (H4 : message_text Scenario.hello = Some "hello") by reflexivity.
  split; [exact bob_is_in_the_office |]. split; [exact H2 |].
  split; [exact H3 |]. split; [exact H4 |].
  exact (new_prompt_is_used_at_once Scenario.answers Office.new_prompt
           Office.bob Office.db "be brief" Office.worker_of_bob Scenario.hello
           "hello" [] bob_is_in_the_office H2 H3 H4).
Defined.

Lemma alice_is_blocked :
  block_user "alice" Office.root Office.db
  = inr (commit Office.db (set_is_active false Office.alice), "User blocked").
Proof. reflexivity. Defined.

Lemma blocking_leaves_the_bot_running_witness :
  NoDup (User.id <$> Office.db)
  ∧ block_user "alice" Office.root Office.db
    = inr (commit Office.db (set_is_active false Office.alice), "User blocked")
  ∧ desired (commit Office.db (set_is_active false Office.alice))
    = desired Office.db.
Proof.
  split; [exact office_ids_are_unique |]. split; [exact alice_is_blocked |].
  exact (proj1 (blocking_leaves_the_bot_running "alice" Office.root Office.db _ _
                  office_ids_are_unique alice_is_blocked)).
Defined.

Lemma blocked_user_is_locked_out_witness :
  block_user "alice" Office.root Office.db
  = inr (commit Office.db (set_is_active false Office.alice), "User blocked")
  ∧ login Office.auth "alice" "wonderland" Office.db = inr "alice"
  ∧ (∃ e, login Office.auth "alice" "wonderland"
            (commit Office.db (set_is_active false Office.alice)) = inl e)
  ∧ get_current_user Office.auth "alice"
      (commit Office.db (set_is_active false Office.alice))
    = inl credentials_exception.
Proof.
  split; [exact alice_is_blocked |]. split; [reflexivity |].
  destruct (blocked_user_is_locked_out Office.auth "alice" Office.root Office.db
              _ _ alice_is_blocked) as [Hlogin Htoken].
  split; [exact (Hlogin "wonderland") | exact (Htoken "alice" eq_refl)].
Defined.

Lemma login_token_authenticates_witness :
  (∀ sub, jwt_decode Office.auth (create_access_token Office.auth sub)
          = Some (Some sub))
  ∧ login Office.auth "alice" "wonderland" Office.db = inr "alice"
  ∧ ∃ user,
      get_current_user Office.auth "alice" Office.db = inr user
      ∧ User.username user = "alice"
      ∧ User.is_active user = true
      ∧ verify_password Office.auth "wonderland" (User.password_hash user) = true.
Proof.
  assert (H1 : ∀ sub, jwt_decode Office.auth (create_access_token Office.auth sub)
                      = Some (Some sub)) by (intros sub; reflexivity).
  assert (H2 : login Office.auth "alice" "wonderland" Office.db = inr "alice")
    by reflexivity.
  split; [exact H1 |]. split; [exact H2 |].
  exact (login_token_authenticates Office.auth "alice" "wonderland" Office.db
           "alice" H1 H2).
Defined.
